(** * Coupon Management API: the coupon selection core of [main.py]

    A shallow embedding of the domain models, the validity / usage /
    eligibility checks, the discount calculator and [best_coupon], followed
    by the properties of the selection engine.

    Modelling conventions.
    - A Python [float] amount is the rational number it stands for ([Q]):
      every finite float is one, and [<], [<=] and [==] on floats compare
      these numbers. The arithmetic on amounts is carried out exactly, and
      [round(x, 2)] is rounding to the nearest cent, ties to the even cent;
      the rounding error of binary floating point, overflow and NaN are not
      modelled. Statements about which coupon is selected are therefore
      made for the selector with the eligibility check, the discount
      calculation and the rounding as parameters ([best_coupon_with]), so
      that they hold whatever these compute.
    - Python [int] is [Z]. A [datetime] is an instant on the UTC time line,
      counted in microseconds ([Z]): all dates carry an offset, as the
      reading of the clock does, so that any two can be compared.
    - [str] is [string], holding the UTF-8 bytes of the text; comparison
      is lexicographic, [len] counts characters and [str.upper] acts on the
      letters a-z.
    - [COUPONS] is an insertion-ordered dictionary: an association list,
      iterated front to back. [USAGE] is a dictionary of dictionaries, only
      ever looked up or updated at one key: a [gmap] of [gmap]s.
    - The wall clock and the two module-level dictionaries form the [World]
      every function of the module runs in. *)

From Stdlib Require Import QArith Qround Qminmax QOrderedType Lqa.
From stdpp Require Import base option list gmap strings sorting.

Local Open Scope Z_scope.

(* ================================================================== *)
(** ** Python built-ins used by the module *)
(* ================================================================== *)

Module Py.

(** [a < b], [a <= b] and [a == b] on floats. *)
Definition flt (a b : Q) : bool :=
  match (a ?= b)%Q with Lt => true | _ => false end.
Definition fle (a b : Q) : bool :=
  match (a ?= b)%Q with Gt => false | _ => true end.
Definition feq (a b : Q) : bool := Qeq_bool a b.

(** [min(a, b)]: the first argument unless the second is smaller. *)
Definition min (a b : Q) : Q := if flt b a then b else a.

(** [max(a, b)]: the first argument unless the second is larger. *)
Definition max (a b : Q) : Q := if flt a b then b else a.

(** Nearest integer, ties to even. *)
Definition round_half_even (x : Q) : Z :=
  let f := Qfloor x in
  match (x - inject_Z f ?= 1 # 2)%Q with
  | Lt => f
  | Gt => f + 1
  | Eq => if Z.even f then f else f + 1
  end.

(** [round(x, ndigits)] for [ndigits >= 0]. *)
Definition round (x : Q) (ndigits : Z) : Q :=
  let scale := inject_Z (10 ^ ndigits) in
  (inject_Z (round_half_even (x * scale)) / scale)%Q.

(** [c.upper()] on one character. *)
Definition upper_ascii (c : Strings.Ascii.ascii) : Strings.Ascii.ascii :=
  let n := Strings.Ascii.N_of_ascii c in
  if ((97 <=? n) && (n <=? 122))%N
  then Strings.Ascii.ascii_of_N (n - 32) else c.

(** [s.upper()]. *)
Fixpoint upper (s : string) : string :=
  match s with
  | EmptyString => EmptyString
  | String c s' => String (upper_ascii c) (upper s')
  end.

(** [s1 < s2] on strings. *)
Definition str_lt (s1 s2 : string) : bool := String.ltb s1 s2.

(** [len(s)]: the number of characters. A [str] is held as its UTF-8
    bytes; a character takes one to four of them, and the bytes of the
    form 10xxxxxx are the ones that continue a character. *)
Definition continues_character (c : Strings.Ascii.ascii) : bool :=
  let n := Strings.Ascii.N_of_ascii c in
  ((128 <=? n) && (n <? 192))%N.

Fixpoint len (s : string) : nat :=
  match s with
  | EmptyString => O
  | String c s' => if continues_character c then len s' else S (len s')
  end.

(** [x in {f(y) for y in ys}]. *)
Definition in_set (x : string) (ys : list string) : bool :=
  bool_decide (x ∈ ys).

(** [xs.isdisjoint(ys)]. *)
Definition isdisjoint (xs ys : list string) : bool :=
  forallb (fun x => negb (in_set x ys)) xs.

(** Truthiness of an [Optional[List[...]]]: [None] and [[]] are falsy. *)
Definition truthy {A} (o : option (list A)) : bool :=
  match o with
  | Some (_ :: _) => true
  | _ => false
  end.

(** Truthiness of an [Optional[bool]]. *)
Definition truthy_bool (o : option bool) : bool :=
  match o with
  | Some true => true
  | _ => false
  end.

(** [list.sort(key=...)]: a stable sort that compares keys with [<] only.
    The element [x] goes in front of the first element of the sorted tail
    whose key is not smaller than its own, which keeps equal keys in their
    original order. *)
Section Sort.
Context {A K : Type} (lt : K -> K -> bool) (key : A -> K).

Fixpoint insert_sorted (x : A) (l : list A) : list A :=
  match l with
  | [] => [x]
  | y :: l' =>
      if lt (key y) (key x) then y :: insert_sorted x l'
      else x :: y :: l'
  end.

Fixpoint sort (l : list A) : list A :=
  match l with
  | [] => []
  | x :: l' => insert_sorted x (sort l')
  end.
End Sort.

End Py.

(* ================================================================== *)
(** ** Domain models *)
(* ================================================================== *)

Definition datetime := Z.

Inductive DiscountType := FLAT | PERCENT.

Record Eligibility := {
  allowedUserTiers : option (list string);
  minLifetimeSpend : option Q;
  minOrdersPlaced : option Z;
  firstOrderOnly : option bool;
  allowedCountries : option (list string);
  minCartValue : option Q;
  applicableCategories : option (list string);
  excludedCategories : option (list string);
  minItemsCount : option Z
}.

(** [Eligibility()]: every field at its default. *)
Definition Eligibility_default : Eligibility := {|
  allowedUserTiers := None;
  minLifetimeSpend := None;
  minOrdersPlaced := None;
  firstOrderOnly := Some false;
  allowedCountries := None;
  minCartValue := None;
  applicableCategories := None;
  excludedCategories := None;
  minItemsCount := None
|}.

Record Coupon := {
  code : string;
  description : option string;
  discountType : DiscountType;
  discountValue : Q;
  maxDiscountAmount : option Q;
  startDate : datetime;
  endDate : datetime;
  usageLimitPerUser : Z;
  eligibility : Eligibility
}.

Record CartItem := {
  productId : string;
  category : string;
  unitPrice : Q;
  quantity : Z
}.

Record Cart := { items : list CartItem }.

Record UserInfo := {
  userId : string;
  userTier : option string;
  country : option string;
  lifetimeSpend : Q;
  ordersPlaced : Z
}.

(** [Cart.total_value]: [sum] starts from 0 and adds from the left. *)
Definition total_value (cart : Cart) : Q :=
  fold_left (fun acc item => (acc + unitPrice item * inject_Z (quantity item))%Q)
            (items cart) 0%Q.

(** [Cart.total_items_count]. *)
Definition total_items_count (cart : Cart) : Z :=
  fold_left (fun acc item => acc + quantity item) (items cart) 0.

(** [Cart.categories]: the distinct categories of the items. *)
Definition categories (cart : Cart) : list string :=
  remove_dups (map category (items cart)).

(* ================================================================== *)
(** ** Construction-time validation (the pydantic field constraints) *)
(* ================================================================== *)

(** Building a model either yields the model or raises a validation error
    that lists the offending fields. *)
Inductive Validated (A : Type) : Type :=
  | Built (a : A)
  | ValidationError (fields : list string).
Arguments Built {A} a.
Arguments ValidationError {A} fields.

Definition is_rejected {A} (v : Validated A) : bool :=
  match v with
  | Built _ => false
  | ValidationError _ => true
  end.

(** One constraint: the field name is reported when the check fails. *)
Definition constraint (ok : bool) (field : string) : list string :=
  if ok then [] else [field].

(** A constraint on an optional field holds vacuously for [None]. *)
Definition constraint_opt {A} (check : A -> bool) (o : option A)
    (field : string) : list string :=
  match o with
  | None => []
  | Some v => constraint (check v) field
  end.

Definition finish {A} (a : A) (errors : list string) : Validated A :=
  match errors with
  | [] => Built a
  | _ :: _ => ValidationError errors
  end.

Definition Eligibility_errors (e : Eligibility) : list string :=
  constraint_opt (fun v => Py.fle 0 v) (minLifetimeSpend e) "minLifetimeSpend"
  ++ constraint_opt (fun v => 0 <=? v) (minOrdersPlaced e) "minOrdersPlaced"
  ++ constraint_opt (fun v => Py.fle 0 v) (minCartValue e) "minCartValue"
  ++ constraint_opt (fun v => 0 <=? v) (minItemsCount e) "minItemsCount".

(** [validate_date_range]: raises when [v <= start]. *)
Definition validate_date_range (v start : datetime) : bool :=
  negb (v <=? start).

Definition Coupon_errors (c : Coupon) : list string :=
  constraint ((1 <=? Py.len (code c))%nat
              && (Py.len (code c) <=? 64)%nat) "code"
  ++ constraint (Py.flt 0 (discountValue c)) "discountValue"
  ++ constraint_opt (fun v => Py.flt 0 v) (maxDiscountAmount c)
       "maxDiscountAmount"
  ++ constraint (validate_date_range (endDate c) (startDate c)) "endDate"
  ++ constraint (1 <=? usageLimitPerUser c) "usageLimitPerUser"
  ++ Eligibility_errors (eligibility c).

(** The constructor [Coupon]. *)
Definition Coupon_new (c : Coupon) : Validated Coupon :=
  finish c (Coupon_errors c).

Definition CartItem_errors (i : CartItem) : list string :=
  constraint (Py.fle 0 (unitPrice i)) "unitPrice"
  ++ constraint (1 <=? quantity i) "quantity".

(** The constructor [CartItem]. *)
Definition CartItem_new (i : CartItem) : Validated CartItem :=
  finish i (CartItem_errors i).

(** The constructor [Cart]: every item is validated. *)
Definition Cart_new (c : Cart) : Validated Cart :=
  finish c (concat (map CartItem_errors (items c))).

Definition UserInfo_errors (u : UserInfo) : list string :=
  constraint (Py.fle 0 (lifetimeSpend u)) "lifetimeSpend"
  ++ constraint (0 <=? ordersPlaced u) "ordersPlaced".

(** The constructor [UserInfo]. *)
Definition UserInfo_new (u : UserInfo) : Validated UserInfo :=
  finish u (UserInfo_errors u).

(* ================================================================== *)
(** ** In-memory storage and the clock *)
(* ================================================================== *)

Record World := {
  (** what [datetime.now(timezone.utc)] returns *)
  clock : datetime;
  (** coupons keyed by code, in insertion order *)
  COUPONS : list (string * Coupon);
  (** usage counts per coupon code -> userId -> count *)
  USAGE : gmap string (gmap string Z)
}.

(** What [create_coupon] guarantees about [COUPONS]: every coupon is stored
    under its own code, and a code is stored once. *)
Definition keyed_by_code (coupons : list (string * Coupon)) : Prop :=
  Forall (fun entry => entry.1 = code entry.2) coupons.

(** No two coupons of the collection share a code. *)
Definition distinct_codes (coupons : list (string * Coupon)) : Prop :=
  NoDup (map (fun entry => code entry.2) coupons).

(* ================================================================== *)
(** ** Utility functions *)
(* ================================================================== *)

Definition now_utc (w : World) : datetime := clock w.

(** [t = ref or now_utc()]; a [datetime] is always truthy. *)
Definition is_within_validity (w : World) (coupon : Coupon)
    (ref : option datetime) : bool :=
  let t := match ref with Some r => r | None => now_utc w end in
  (startDate coupon <=? t) && (t <=? endDate coupon).

(** [USAGE.get(code, {}).get(user_id, 0)]. *)
Definition user_usage_for_coupon (w : World) (code user_id : string) : Z :=
  default 0 (default ∅ (USAGE w !! code) !! user_id).

Definition check_eligibility (coupon : Coupon) (user : UserInfo)
    (cart : Cart) : bool :=
  let e := eligibility coupon in
  (* User tier *)
  if Py.truthy (allowedUserTiers e)
     && negb (Py.in_set (Py.upper (default ""%string (userTier user)))
                (map Py.upper (default [] (allowedUserTiers e))))
  then false
  (* Country *)
  else if Py.truthy (allowedCountries e)
     && negb (Py.in_set (Py.upper (default ""%string (country user)))
                (map Py.upper (default [] (allowedCountries e))))
  then false
  (* First order only *)
  else if Py.truthy_bool (firstOrderOnly e) && negb (ordersPlaced user =? 0)
  then false
  (* Orders placed minimum *)
  else if match minOrdersPlaced e with
          | Some m => ordersPlaced user <? m
          | None => false
          end
  then false
  (* Lifetime spend minimum *)
  else if match minLifetimeSpend e with
          | Some m => Py.flt (lifetimeSpend user) m
          | None => false
          end
  then false
  else
  (* Min cart value *)
  let cart_total := total_value cart in
  if match minCartValue e with
     | Some m => Py.flt cart_total m
     | None => false
     end
  then false
  (* Min items count *)
  else if match minItemsCount e with
          | Some m => total_items_count cart <? m
          | None => false
          end
  then false
  else
  (* Applicable/excluded categories *)
  let cats := map Py.upper (categories cart) in
  if Py.truthy (applicableCategories e)
     && Py.isdisjoint cats (map Py.upper (default [] (applicableCategories e)))
  then false
  else if Py.truthy (excludedCategories e)
     && negb (Py.isdisjoint cats (map Py.upper (default [] (excludedCategories e))))
  then false
  else true.

Definition calculate_discount (coupon : Coupon) (cart : Cart) : Q :=
  let cart_value := total_value cart in
  let discount :=
    match discountType coupon with
    | FLAT => discountValue coupon
    | PERCENT =>
        let discount := (cart_value * (discountValue coupon / 100))%Q in
        match maxDiscountAmount coupon with
        | Some cap => Py.min discount cap
        | None => discount
        end
    end in
  (* Discount cannot exceed cart total *)
  Py.max 0 (Py.min discount cart_value).

(* ================================================================== *)
(** ** Best-coupon selection *)
(* ================================================================== *)

(** An entry of [candidates]: [{"coupon": ..., "discount": ...}]. *)
Record Candidate := {
  cand_coupon : Coupon;
  cand_discount : Q
}.

(** The dictionary [best_coupon] returns; the last two keys are only set
    when the usage impact is evaluated. *)
Record Selection := {
  sel_coupon : Coupon;
  computedDiscount : Q;
  projectedUsageForUser : option Z;
  sel_usageLimitPerUser : option Z
}.

(** The sort key [(-discount, endDate, code)]. *)
Definition sort_key (x : Candidate) : Q * datetime * string :=
  ((- cand_discount x)%Q, endDate (cand_coupon x), code (cand_coupon x)).

(** [k1 < k2] on the key tuples: the first component on which the keys
    differ decides. *)
Definition key_lt (k1 k2 : Q * datetime * string) : bool :=
  let '(d1, e1, c1) := k1 in
  let '(d2, e2, c2) := k2 in
  if negb (Py.feq d1 d2) then Py.flt d1 d2
  else if negb (e1 =? e2) then e1 <? e2
  else Py.str_lt c1 c2.

(** One turn of the loop over [COUPONS.items()]. *)
Definition consider (w : World) (reference_time : datetime) (user : UserInfo)
    (cart : Cart) (candidates : list Candidate) (entry : string * Coupon)
    : list Candidate :=
  let '(code, coupon) := entry in
  (* Validity window *)
  if negb (is_within_validity w coupon (Some reference_time)) then candidates
  (* Usage limit per user *)
  else if usageLimitPerUser coupon <=? user_usage_for_coupon w code (userId user)
  then candidates
  (* Eligibility *)
  else if negb (check_eligibility coupon user cart) then candidates
  else
    let disc := calculate_discount coupon cart in
    if Py.fle disc 0 then candidates
    else candidates ++ [ {| cand_coupon := coupon;
                            cand_discount := Py.round disc 2 |} ].

(** The list [candidates] after the loop. *)
Definition collect_candidates (w : World) (reference_time : datetime)
    (user : UserInfo) (cart : Cart) : list Candidate :=
  fold_left (consider w reference_time user cart) (COUPONS w) [].

Definition best_coupon (w : World) (user : UserInfo) (cart : Cart)
    (evaluate_usage_impact : bool) : option Selection :=
  let reference_time := now_utc w in
  let candidates := collect_candidates w reference_time user cart in
  match candidates with
  | [] => None
  | _ :: _ =>
      (* Deterministic selection with tie breakers *)
      match Py.sort key_lt sort_key candidates with
      | [] => None (* not reached: sorting keeps the list non-empty *)
      | top :: _ =>
          Some
            (if evaluate_usage_impact then
               (* Projected usage if applied now *)
               let current :=
                 user_usage_for_coupon w (code (cand_coupon top))
                   (userId user) in
               {| sel_coupon := cand_coupon top;
                  computedDiscount := cand_discount top;
                  projectedUsageForUser := Some (current + 1);
                  sel_usageLimitPerUser :=
                    Some (usageLimitPerUser (cand_coupon top)) |}
             else
               {| sel_coupon := cand_coupon top;
                  computedDiscount := cand_discount top;
                  projectedUsageForUser := None;
                  sel_usageLimitPerUser := None |})
      end
  end.

(** [create_coupon]: a duplicate code is refused (HTTP 400), otherwise the
    coupon is appended under its code and its usage map is initialised. *)
Definition create_coupon (w : World) (coupon : Coupon) : option World :=
  if bool_decide (code coupon ∈ map fst (COUPONS w)) then None
  else Some {| clock := clock w;
               COUPONS := COUPONS w ++ [(code coupon, coupon)];
               USAGE := match USAGE w !! code coupon with
                        | Some _ => USAGE w
                        | None => <[code coupon := ∅]> (USAGE w)
                        end |}.

(* ================================================================== *)
(** ** Vocabulary of the statements *)
(* ================================================================== *)

(** [y] may stand after [x] in a list sorted by [key]: its key is not
    smaller. *)
Definition not_after {A K : Type} (lt : K -> K -> bool) (key : A -> K)
    (x y : A) : Prop :=
  lt (key y) (key x) = false.

(** The four checks of the loop body, taken together: the entry passes the
    validity window, the usage limit, the eligibility rules and the test on
    the discount. *)
Definition survives (w : World) (reference_time : datetime) (user : UserInfo)
    (cart : Cart) (entry : string * Coupon) : bool :=
  is_within_validity w entry.2 (Some reference_time)
  && negb (usageLimitPerUser entry.2
           <=? user_usage_for_coupon w entry.1 (userId user))
  && check_eligibility entry.2 user cart
  && negb (Py.fle (calculate_discount entry.2 cart) 0).

(** The candidate the loop appends for a surviving entry. *)
Definition candidate_of (cart : Cart) (entry : string * Coupon) : Candidate :=
  {| cand_coupon := entry.2;
     cand_discount := Py.round (calculate_discount entry.2 cart) 2 |}.

(** The dictionary [best_coupon] builds from the candidate [top]. *)
Definition selection_for (w : World) (user : UserInfo)
    (evaluate_usage_impact : bool) (top : Candidate) : Selection :=
  if evaluate_usage_impact then
    {| sel_coupon := cand_coupon top;
       computedDiscount := cand_discount top;
       projectedUsageForUser :=
         Some (user_usage_for_coupon w (code (cand_coupon top)) (userId user) + 1);
       sel_usageLimitPerUser := Some (usageLimitPerUser (cand_coupon top)) |}
  else
    {| sel_coupon := cand_coupon top;
       computedDiscount := cand_discount top;
       projectedUsageForUser := None;
       sel_usageLimitPerUser := None |}.

(** The tie-break chain in the words of the specification: [x] wins over
    [y] when its rounded discount is higher; on equal rounded discounts,
    when its end date is earlier; on equal discounts and end dates, when its
    code is lexicographically smaller. *)
Definition wins_over (x y : Candidate) : Prop :=
  (cand_discount y < cand_discount x)%Q
  \/ ((cand_discount x == cand_discount y)%Q
      /\ endDate (cand_coupon x) < endDate (cand_coupon y))
  \/ ((cand_discount x == cand_discount y)%Q
      /\ endDate (cand_coupon x) = endDate (cand_coupon y)
      /\ (code (cand_coupon x) ?= code (cand_coupon y))%string = Lt).

(** The discount in the words of the specification: FLAT gives the
    discount value whatever the cart holds; PERCENT gives the cart total
    times the rate, brought down to the cap when there is one; either way
    the amount is clamped into [[0, cartTotal]]. *)
Definition clamp (x lo hi : Q) : Q := Qmax lo (Qmin x hi).

Definition computeDiscount (coupon : Coupon) (cart : Cart) : Q :=
  let cartTotal := total_value cart in
  let discount :=
    match discountType coupon with
    | FLAT => discountValue coupon
    | PERCENT =>
        let amount := (cartTotal * (discountValue coupon / 100))%Q in
        match maxDiscountAmount coupon with
        | Some cap => Qmin amount cap
        | None => amount
        end
    end in
  clamp discount 0 cartTotal.

(* ================================================================== *)
(** ** Field updates *)
(* ================================================================== *)

(** The coupon [c] with its eligibility rules replaced. *)
Definition with_eligibility (c : Coupon) (e : Eligibility) : Coupon := {|
  code := code c;
  description := description c;
  discountType := discountType c;
  discountValue := discountValue c;
  maxDiscountAmount := maxDiscountAmount c;
  startDate := startDate c;
  endDate := endDate c;
  usageLimitPerUser := usageLimitPerUser c;
  eligibility := e
|}.

(** The rules [e] with one set-valued field replaced. *)
Definition with_allowedUserTiers (e : Eligibility) (v : option (list string))
    : Eligibility := {|
  allowedUserTiers := v;
  minLifetimeSpend := minLifetimeSpend e;
  minOrdersPlaced := minOrdersPlaced e;
  firstOrderOnly := firstOrderOnly e;
  allowedCountries := allowedCountries e;
  minCartValue := minCartValue e;
  applicableCategories := applicableCategories e;
  excludedCategories := excludedCategories e;
  minItemsCount := minItemsCount e
|}.

Definition with_allowedCountries (e : Eligibility) (v : option (list string))
    : Eligibility := {|
  allowedUserTiers := allowedUserTiers e;
  minLifetimeSpend := minLifetimeSpend e;
  minOrdersPlaced := minOrdersPlaced e;
  firstOrderOnly := firstOrderOnly e;
  allowedCountries := v;
  minCartValue := minCartValue e;
  applicableCategories := applicableCategories e;
  excludedCategories := excludedCategories e;
  minItemsCount := minItemsCount e
|}.

Definition with_applicableCategories (e : Eligibility)
    (v : option (list string)) : Eligibility := {|
  allowedUserTiers := allowedUserTiers e;
  minLifetimeSpend := minLifetimeSpend e;
  minOrdersPlaced := minOrdersPlaced e;
  firstOrderOnly := firstOrderOnly e;
  allowedCountries := allowedCountries e;
  minCartValue := minCartValue e;
  applicableCategories := v;
  excludedCategories := excludedCategories e;
  minItemsCount := minItemsCount e
|}.

Definition with_excludedCategories (e : Eligibility)
    (v : option (list string)) : Eligibility := {|
  allowedUserTiers := allowedUserTiers e;
  minLifetimeSpend := minLifetimeSpend e;
  minOrdersPlaced := minOrdersPlaced e;
  firstOrderOnly := firstOrderOnly e;
  allowedCountries := allowedCountries e;
  minCartValue := minCartValue e;
  applicableCategories := applicableCategories e;
  excludedCategories := v;
  minItemsCount := minItemsCount e
|}.

(* ================================================================== *)
(** ** Sample data *)
(* ================================================================== *)

Module Demo.

Definition shopper : UserInfo := {|
  userId := "u1"; userTier := Some "gold"%string; country := Some "in"%string;
  lifetimeSpend := 500; ordersPlaced := 3 |}.

Definition line (cat : string) (price : Q) (qty : Z) : CartItem :=
  {| productId := "p1"; category := cat; unitPrice := price; quantity := qty |}.

(** A cart worth 200.00. *)
Definition cart_200 : Cart := {| items := [line "books" 100 2] |}.

(** A cart worth 0.40. *)
Definition cart_small : Cart := {| items := [line "sweets" (2 # 5) 1] |}.

Definition coupon (c : string) (ty : DiscountType) (value : Q)
    (cap : option Q) (start finish : datetime) (limit : Z) : Coupon :=
  {| code := c; description := None; discountType := ty;
     discountValue := value; maxDiscountAmount := cap;
     startDate := start; endDate := finish; usageLimitPerUser := limit;
     eligibility := Eligibility_default |}.

(** 10 percent, capped at 15.00. *)
Definition coupon_A : Coupon := coupon "A" PERCENT 10 (Some 15%Q) 0 100 2.
(** 18.00 off. *)
Definition coupon_B : Coupon := coupon "B" FLAT 18 None 0 100 2.
(** 18.00 off as well, ending later than [coupon_B]. *)
Definition coupon_C : Coupon := coupon "C" FLAT 18 None 0 150 1.
(** 1 percent. *)
Definition coupon_P : Coupon := coupon "P" PERCENT 1 None 0 100 1.

Definition store (coupons : list Coupon) : list (string * Coupon) :=
  map (fun c => (code c, c)) coupons.

(** The shopper has used [coupon_B] once and [coupon_C] once. *)
Definition usage : gmap string (gmap string Z) :=
  {[ "A"%string := ∅;
     "B"%string := {[ "u1"%string := 1 ]};
     "C"%string := {[ "u1"%string := 1 ]} ]}.

Definition world (t : datetime) (coupons : list Coupon) : World :=
  {| clock := t; COUPONS := store coupons; USAGE := usage |}.

End Demo.

(* ================================================================== *)
(** ** API routes over the store *)
(* ================================================================== *)

(** [COUPONS.get(code)]: the coupon stored under [code], if any. The test
    [code in COUPONS] is [coupons_get] answering [Some]. *)
Fixpoint coupons_get (coupons : list (string * Coupon)) (code : string)
    : option Coupon :=
  match coupons with
  | [] => None
  | (k, c) :: rest => if decide (k = code) then Some c else coupons_get rest code
  end.

(** [list_coupons]: [list(COUPONS.values())]. *)
Definition list_coupons (w : World) : list Coupon := map snd (COUPONS w).

(** [HTTPException(status_code=..., detail=...)]. *)
Record HTTPException := {
  status_code : Z;
  detail : string
}.

(** What [use_coupon] returns. *)
Record UsageReceipt := {
  receipt_code : string;
  receipt_userId : string;
  newUsage : Z;
  limit : Z
}.

(** [use_coupon]: increments the usage of [code] for the user while the
    limit allows it. The membership test and the read [COUPONS[code]] are
    one lookup here. *)
Definition use_coupon (w : World) (code : string) (body : UserInfo)
    : HTTPException + World * UsageReceipt :=
  match coupons_get (COUPONS w) code with
  | None => inl {| status_code := 404; detail := "Coupon not found" |}
  | Some coupon =>
      (* Increment usage for this user if still allowed *)
      let current := user_usage_for_coupon w code (userId body) in
      let limit := usageLimitPerUser coupon in
      if limit <=? current
      then inl {| status_code := 429;
                  detail := "Usage limit reached for this user" |}
      else inr ({| clock := clock w;
                   COUPONS := COUPONS w;
                   USAGE := <[code := <[userId body := current + 1]>
                                         (default ∅ (USAGE w !! code))]>
                              (USAGE w) |},
                {| receipt_code := code; receipt_userId := userId body;
                   newUsage := current + 1; limit := limit |})
  end.

(** The request body of [/best-coupon]. *)
Record BestCouponInput := {
  payload_user : UserInfo;
  payload_cart : Cart;
  evaluateUsageImpact : option bool
}.

(** The values of the JSON object [get_best_coupon] answers with. *)
Inductive JsonValue :=
  | JNull
  | JCoupon (c : Coupon)
  | JNumber (x : Q)
  | JInt (n : Z).

(** [result.get(key)] for an integer entry: [None] when the key is unset. *)
Definition json_of_int (o : option Z) : JsonValue :=
  match o with
  | Some n => JInt n
  | None => JNull
  end.

(** [get_best_coupon]: the response dictionary, key by key in order. *)
Definition get_best_coupon (w : World) (payload : BestCouponInput)
    : list (string * JsonValue) :=
  let result :=
    best_coupon w (payload_user payload) (payload_cart payload)
      (default false (evaluateUsageImpact payload)) in
  match result with
  | None => [("bestCoupon"%string, JNull)]
  | Some result =>
      [("bestCoupon"%string, JCoupon (sel_coupon result));
       ("computedDiscount"%string, JNumber (computedDiscount result))]
      ++ (if Py.truthy_bool (evaluateUsageImpact payload)
          then [("projectedUsageForUser"%string,
                 json_of_int (projectedUsageForUser result));
                ("usageLimitPerUser"%string,
                 json_of_int (sel_usageLimitPerUser result))]
          else [])
  end.

(** The worlds the service can be in: it starts with both dictionaries
    empty; time passes; [create_coupon] stores a coupon that passed
    construction; [use_coupon] records a use. *)
Inductive reachable : World -> Prop :=
  | reachable_start t :
      reachable {| clock := t; COUPONS := []; USAGE := ∅ |}
  | reachable_tick w t :
      reachable w ->
      reachable {| clock := t; COUPONS := COUPONS w; USAGE := USAGE w |}
  | reachable_create w coupon w' :
      reachable w ->
      Coupon_new coupon = Built coupon ->
      create_coupon w coupon = Some w' ->
      reachable w'
  | reachable_use w code body w' receipt :
      reachable w ->
      use_coupon w code body = inr (w', receipt) ->
      reachable w'.

(** [n] calls of [use_coupon] in a row for the same coupon and user; the
    first refusal stops the run. *)
Fixpoint use_coupon_times (n : nat) (w : World) (code : string)
    (body : UserInfo) : HTTPException + World :=
  match n with
  | O => inr w
  | S n' =>
      match use_coupon w code body with
      | inl e => inl e
      | inr (w', _) => use_coupon_times n' w' code body
      end
  end.

(* ================================================================== *)
(** ** Sample runs of the service *)
(* ================================================================== *)

Module Sample.

(** The service right after start-up, at time 50. *)
Definition start : World := {| clock := 50; COUPONS := []; USAGE := ∅ |}.

(** After [coupon_A] was created. *)
Definition with_A : World :=
  {| clock := 50;
     COUPONS := [("A"%string, Demo.coupon_A)];
     USAGE := {[ "A"%string := ∅ ]} |}.

(** After [coupon_A] and [coupon_B] were created. *)
Definition with_AB : World :=
  {| clock := 50;
     COUPONS := [("A"%string, Demo.coupon_A); ("B"%string, Demo.coupon_B)];
     USAGE := {[ "A"%string := ∅; "B"%string := ∅ ]} |}.

(** After the shopper used [coupon_A] once, and twice. *)
Definition used_A (n : Z) : World :=
  {| clock := 50;
     COUPONS := [("A"%string, Demo.coupon_A); ("B"%string, Demo.coupon_B)];
     USAGE := {[ "A"%string := {[ "u1"%string := n ]}; "B"%string := ∅ ]} |}.

(** Another shopper. *)
Definition visitor : UserInfo := {|
  userId := "u2"; userTier := None; country := None;
  lifetimeSpend := 0; ordersPlaced := 0 |}.

(** After the shopper used [coupon_A] twice and [coupon_C] was created. *)
Definition with_ABC : World :=
  {| clock := 50;
     COUPONS := [("A"%string, Demo.coupon_A); ("B"%string, Demo.coupon_B);
                 ("C"%string, Demo.coupon_C)];
     USAGE := {[ "A"%string := {[ "u1"%string := 2 ]}; "B"%string := ∅;
                 "C"%string := ∅ ]} |}.

(** After the visitor, too, used [coupon_A] once. *)
Definition later_on : World :=
  {| clock := 50;
     COUPONS := [("A"%string, Demo.coupon_A); ("B"%string, Demo.coupon_B);
                 ("C"%string, Demo.coupon_C)];
     USAGE := {[ "A"%string := {[ "u1"%string := 2; "u2"%string := 1 ]};
                 "B"%string := ∅; "C"%string := ∅ ]} |}.

End Sample.

(* ================================================================== *)
(** ** Spelling in capitals *)
(* ================================================================== *)

(** The user with tier and country written in capitals. *)
Definition upper_user (u : UserInfo) : UserInfo := {|
  userId := userId u;
  userTier := Py.upper <$> userTier u;
  country := Py.upper <$> country u;
  lifetimeSpend := lifetimeSpend u;
  ordersPlaced := ordersPlaced u
|}.

(** The cart with every category written in capitals. *)
Definition upper_item (i : CartItem) : CartItem := {|
  productId := productId i;
  category := Py.upper (category i);
  unitPrice := unitPrice i;
  quantity := quantity i
|}.

Definition upper_cart (cart : Cart) : Cart :=
  {| items := map upper_item (items cart) |}.

(** The rules with every tier, country and category written in capitals. *)
Definition upper_rules (e : Eligibility) : Eligibility := {|
  allowedUserTiers := map Py.upper <$> allowedUserTiers e;
  minLifetimeSpend := minLifetimeSpend e;
  minOrdersPlaced := minOrdersPlaced e;
  firstOrderOnly := firstOrderOnly e;
  allowedCountries := map Py.upper <$> allowedCountries e;
  minCartValue := minCartValue e;
  applicableCategories := map Py.upper <$> applicableCategories e;
  excludedCategories := map Py.upper <$> excludedCategories e;
  minItemsCount := minItemsCount e
|}.

(** The eligibility rules as nine conditions, each binding only when its
    field is set (and, for a list, not empty). Texts are compared after
    writing both sides in capitals; a missing tier or country counts as the
    empty text. *)
Definition meets_rules (e : Eligibility) (user : UserInfo) (cart : Cart)
    : Prop :=
  (forall tiers, allowedUserTiers e = Some tiers -> tiers <> [] ->
     exists t, t ∈ tiers
               /\ Py.upper t = Py.upper (default ""%string (userTier user)))
  /\ (forall countries, allowedCountries e = Some countries -> countries <> [] ->
        exists c, c ∈ countries
                  /\ Py.upper c = Py.upper (default ""%string (country user)))
  /\ (firstOrderOnly e = Some true -> ordersPlaced user = 0)
  /\ (forall m, minOrdersPlaced e = Some m -> m <= ordersPlaced user)
  /\ (forall m, minLifetimeSpend e = Some m -> (m <= lifetimeSpend user)%Q)
  /\ (forall m, minCartValue e = Some m -> (m <= total_value cart)%Q)
  /\ (forall m, minItemsCount e = Some m -> m <= total_items_count cart)
  /\ (forall cats, applicableCategories e = Some cats -> cats <> [] ->
        exists item a, item ∈ items cart /\ a ∈ cats
                       /\ Py.upper (category item) = Py.upper a)
  /\ (forall cats, excludedCategories e = Some cats ->
        forall item x, item ∈ items cart -> x ∈ cats ->
                       Py.upper (category item) <> Py.upper x).

(* ================================================================== *)
(** ** The selector on its own *)
(* ================================================================== *)

(** [best_coupon] with the three computations it calls taken as
    parameters: the eligibility check, the discount calculation and the
    rounding to 2 decimal places. Whatever these three return, the loop,
    the sort and the choice of the first candidate are those of
    [best_coupon]; amounts are compared by their values. *)
Section Selector.
Context (eligible : Coupon -> UserInfo -> Cart -> bool)
        (discount_of : Coupon -> Cart -> Q)
        (rounded : Q -> Q).

(** One turn of the loop over [COUPONS.items()]. *)
Definition consider_with (w : World) (reference_time : datetime)
    (user : UserInfo) (cart : Cart) (candidates : list Candidate)
    (entry : string * Coupon) : list Candidate :=
  let '(code, coupon) := entry in
  (* Validity window *)
  if negb (is_within_validity w coupon (Some reference_time)) then candidates
  (* Usage limit per user *)
  else if usageLimitPerUser coupon <=? user_usage_for_coupon w code (userId user)
  then candidates
  (* Eligibility *)
  else if negb (eligible coupon user cart) then candidates
  else
    let disc := discount_of coupon cart in
    if Py.fle disc 0 then candidates
    else candidates ++ [ {| cand_coupon := coupon;
                            cand_discount := rounded disc |} ].

Definition collect_candidates_with (w : World) (reference_time : datetime)
    (user : UserInfo) (cart : Cart) : list Candidate :=
  fold_left (consider_with w reference_time user cart) (COUPONS w) [].

Definition best_coupon_with (w : World) (user : UserInfo) (cart : Cart)
    (evaluate_usage_impact : bool) : option Selection :=
  let reference_time := now_utc w in
  let candidates := collect_candidates_with w reference_time user cart in
  match candidates with
  | [] => None
  | _ :: _ =>
      (* Deterministic selection with tie breakers *)
      match Py.sort key_lt sort_key candidates with
      | [] => None (* not reached: sorting keeps the list non-empty *)
      | top :: _ =>
          Some
            (if evaluate_usage_impact then
               (* Projected usage if applied now *)
               let current :=
                 user_usage_for_coupon w (code (cand_coupon top))
                   (userId user) in
               {| sel_coupon := cand_coupon top;
                  computedDiscount := cand_discount top;
                  projectedUsageForUser := Some (current + 1);
                  sel_usageLimitPerUser :=
                    Some (usageLimitPerUser (cand_coupon top)) |}
             else
               {| sel_coupon := cand_coupon top;
                  computedDiscount := cand_discount top;
                  projectedUsageForUser := None;
                  sel_usageLimitPerUser := None |})
      end
  end.

(** The entry passes the four checks of the loop body. *)
Definition passes_with (w : World) (reference_time : datetime)
    (user : UserInfo) (cart : Cart) (entry : string * Coupon) : bool :=
  is_within_validity w entry.2 (Some reference_time)
  && negb (usageLimitPerUser entry.2
           <=? user_usage_for_coupon w entry.1 (userId user))
  && eligible entry.2 user cart
  && negb (Py.fle (discount_of entry.2 cart) 0).

(** The candidate the loop appends for a passing entry. *)
Definition candidate_with (cart : Cart) (entry : string * Coupon) : Candidate :=
  {| cand_coupon := entry.2;
     cand_discount := rounded (discount_of entry.2 cart) |}.

End Selector.

(** The worlds the service can be in later than [w]: any number of steps
    from [w], each being the passing of time, a [create_coupon] of a coupon
    that passed construction, or a [use_coupon]. *)
Inductive later (w : World) : World -> Prop :=
  | later_now : later w w
  | later_tick w1 t :
      later w w1 ->
      later w {| clock := t; COUPONS := COUPONS w1; USAGE := USAGE w1 |}
  | later_create w1 coupon w2 :
      later w w1 ->
      Coupon_new coupon = Built coupon ->
      create_coupon w1 coupon = Some w2 ->
      later w w2
  | later_use w1 code body w2 receipt :
      later w w1 ->
      use_coupon w1 code body = inr (w2, receipt) ->
      later w w2.

(* ================================================================== *)
(** ** Facts about the built-ins *)
(* ================================================================== *)

Section PyFacts.

Lemma flt_true a b : Py.flt a b = true <-> (a < b)%Q.
Proof.
  unfold Py.flt. destruct (Qcompare_spec a b) as [H|H|H]; split;
    intros; try done; q_order.
Qed.

Lemma flt_false a b : Py.flt a b = false <-> (b <= a)%Q.
Proof.
  unfold Py.flt. destruct (Qcompare_spec a b) as [H|H|H]; split;
    intros; try done; q_order.
Qed.

Lemma fle_true a b : Py.fle a b = true <-> (a <= b)%Q.
Proof.
  unfold Py.fle. destruct (Qcompare_spec a b) as [H|H|H]; split;
    intros; try done; q_order.
Qed.

Lemma fle_false a b : Py.fle a b = false <-> (b < a)%Q.
Proof.
  unfold Py.fle. destruct (Qcompare_spec a b) as [H|H|H]; split;
    intros; try done; q_order.
Qed.

Lemma feq_true a b : Py.feq a b = true <-> (a == b)%Q.
Proof. apply Qeq_bool_iff. Qed.

Lemma feq_false a b : Py.feq a b = false <-> ~ (a == b)%Q.
Proof.
  rewrite <- feq_true. destruct (Py.feq a b); split; congruence.
Qed.

(** [min] and [max] pick the same argument as the order-theoretic
    minimum and maximum. *)
Lemma py_min_Qmin a b : Py.min a b = Qmin a b.
Proof.
  unfold Py.min, Py.flt, Qmin, GenericMinMax.gmin.
  rewrite <- (Qcompare_antisym a b). by destruct (a ?= b)%Q.
Qed.

Lemma py_max_Qmax a b : Py.max a b = Qmax a b.
Proof.
  unfold Py.max, Py.flt, Qmax, GenericMinMax.gmax.
  by destruct (a ?= b)%Q.
Qed.

(** Strings: [<] is a strict total order. *)
Lemma str_compare_refl s : (s ?= s)%string = Eq.
Proof.
  pose proof (String.compare_antisym s s) as H.
  destruct (s ?= s)%string; simpl in H; congruence.
Qed.

Lemma str_lt_irrefl s : Py.str_lt s s = false.
Proof. unfold Py.str_lt, String.ltb. by rewrite str_compare_refl. Qed.

Lemma str_lt_leb a b :
  Py.str_lt a b = true <-> String.leb a b = true /\ a <> b.
Proof.
  unfold Py.str_lt, String.ltb, String.leb.
  destruct (a ?= b)%string eqn:E; split; try done.
  - intros [_ H]. by apply String.compare_eq_iff in E.
  - intros _. split; [done|]. intros ->.
    by rewrite str_compare_refl in E.
  - by intros [? _].
Qed.

Lemma str_lt_trans a b c :
  Py.str_lt a b = true -> Py.str_lt b c = true -> Py.str_lt a c = true.
Proof.
  rewrite !str_lt_leb. intros [Hab Hne] [Hbc _].
  apply Is_true_true in Hab, Hbc.
  assert (Hac : String.le a c) by (etrans; [exact Hab | exact Hbc]).
  split; [by apply Is_true_true|].
  intros ->. apply Hne.
  by apply (anti_symm String.le).
Qed.

Lemma str_lt_total a b :
  Py.str_lt a b = true \/ a = b \/ Py.str_lt b a = true.
Proof.
  unfold Py.str_lt, String.ltb.
  rewrite (String.compare_antisym b a).
  destruct (a ?= b)%string eqn:E; simpl; auto.
  right; left. by apply String.compare_eq_iff.
Qed.

Lemma str_lt_asym a b : Py.str_lt a b = true -> Py.str_lt b a = false.
Proof.
  intros H. destruct (Py.str_lt b a) eqn:E; [|done].
  pose proof (str_lt_trans _ _ _ H E) as Haa.
  by rewrite str_lt_irrefl in Haa.
Qed.

End PyFacts.

(* ================================================================== *)
(** ** The sort: a permutation, sorted, with a least element in front *)
(* ================================================================== *)

Section SortFacts.
Context {A K : Type} (lt : K -> K -> bool) (key : A -> K).

Local Abbreviation not_after := (not_after lt key).

Hypothesis lt_asym : forall a b, lt a b = true -> lt b a = false.
Hypothesis lt_negtrans :
  forall a b c, lt a b = false -> lt b c = false -> lt a c = false.

Lemma lt_irrefl a : lt a a = false.
Proof.
  destruct (lt a a) eqn:E; [|done].
  pose proof (lt_asym _ _ E). congruence.
Qed.

Lemma insert_sorted_Permutation x l :
  Py.insert_sorted lt key x l ≡ₚ x :: l.
Proof.
  induction l as [|y l IH]; simpl; [done|].
  destruct (lt (key y) (key x)); [|done].
  rewrite IH. apply Permutation_swap.
Qed.

Lemma sort_Permutation l : Py.sort lt key l ≡ₚ l.
Proof.
  induction l as [|x l IH]; simpl; [done|].
  by rewrite insert_sorted_Permutation, IH.
Qed.

Lemma insert_sorted_StronglySorted x l :
  StronglySorted not_after l ->
  StronglySorted not_after (Py.insert_sorted lt key x l).
Proof.
  induction 1 as [|y l Hl IH Hy]; simpl.
  - repeat constructor.
  - destruct (lt (key y) (key x)) eqn:E.
    + constructor; [done|].
      rewrite insert_sorted_Permutation. constructor; [|done].
      unfold not_after. by apply lt_asym.
    + constructor; [by constructor|].
      constructor; [done|].
      eapply Forall_impl; [exact Hy|].
      unfold not_after. intros z Hz. by eapply lt_negtrans.
Qed.

Lemma sort_StronglySorted l : StronglySorted not_after (Py.sort lt key l).
Proof.
  induction l as [|x l IH]; simpl; [constructor|].
  by apply insert_sorted_StronglySorted.
Qed.

(** The element in front of the sorted list comes from the input and no
    element of the input has a smaller key. *)
Lemma sort_head_least l m rest :
  Py.sort lt key l = m :: rest ->
  m ∈ l /\ forall y, y ∈ l -> lt (key y) (key m) = false.
Proof.
  intros Hs. pose proof (sort_Permutation l) as Hp.
  pose proof (sort_StronglySorted l) as Hsorted.
  rewrite Hs in Hp, Hsorted. split.
  - rewrite <- Hp. by left.
  - intros y Hy. rewrite <- Hp in Hy.
    apply StronglySorted_inv in Hsorted as [_ Hall].
    apply elem_of_cons in Hy as [->|Hy]; [apply lt_irrefl|].
    rewrite Forall_forall in Hall. by apply Hall.
Qed.

Lemma sort_nil_inv l : Py.sort lt key l = [] -> l = [].
Proof.
  intros Hs. pose proof (sort_Permutation l) as Hp. rewrite Hs in Hp.
  by apply Permutation_nil_l in Hp.
Qed.

End SortFacts.

(* ================================================================== *)
(** ** The order on sort keys *)
(* ================================================================== *)

(** Case analysis on every comparison that occurs in the goal or in a
    hypothesis, each case recorded as a proposition. *)
Ltac split_comparisons :=
  repeat match goal with
  | H : context [Py.feq ?a ?b] |- _ =>
      let E := fresh "E" in
      destruct (Py.feq a b) eqn:E;
      [apply feq_true in E | apply feq_false in E]
  | |- context [Py.feq ?a ?b] =>
      let E := fresh "E" in
      destruct (Py.feq a b) eqn:E;
      [apply feq_true in E | apply feq_false in E]
  | H : context [Py.flt ?a ?b] |- _ =>
      let E := fresh "E" in
      destruct (Py.flt a b) eqn:E;
      [apply flt_true in E | apply flt_false in E]
  | |- context [Py.flt ?a ?b] =>
      let E := fresh "E" in
      destruct (Py.flt a b) eqn:E;
      [apply flt_true in E | apply flt_false in E]
  | H : context [Z.eqb ?a ?b] |- _ => destruct (Z.eqb_spec a b)
  | |- context [Z.eqb ?a ?b] => destruct (Z.eqb_spec a b)
  | H : context [Z.ltb ?a ?b] |- _ => destruct (Z.ltb_spec a b)
  | |- context [Z.ltb ?a ?b] => destruct (Z.ltb_spec a b)
  end; simpl in *.

Section KeyOrder.
Implicit Types k : Q * datetime * string.

Lemma key_lt_asym k1 k2 : key_lt k1 k2 = true -> key_lt k2 k1 = false.
Proof.
  destruct k1 as [[d1 e1] c1], k2 as [[d2 e2] c2]. unfold key_lt.
  split_comparisons; intros; try done; try lia; try q_order.
  by apply str_lt_asym.
Qed.

Lemma key_lt_negtrans k1 k2 k3 :
  key_lt k1 k2 = false -> key_lt k2 k3 = false -> key_lt k1 k3 = false.
Proof.
  destruct k1 as [[d1 e1] c1], k2 as [[d2 e2] c2], k3 as [[d3 e3] c3].
  unfold key_lt.
  split_comparisons; intros H12 H23; try done; try lia; try q_order.
  subst. destruct (Py.str_lt c1 c3) eqn:E13; [|done].
  destruct (str_lt_total c2 c3) as [Hs|[->|Hs]]; [congruence..|].
  pose proof (str_lt_trans _ _ _ E13 Hs). congruence.
Qed.

(** Two keys that are not ordered either way agree on the end date and
    on the code, and carry equal amounts. *)
Lemma key_lt_tie k1 k2 :
  key_lt k1 k2 = false -> key_lt k2 k1 = false ->
  (k1.1.1 == k2.1.1)%Q /\ k1.1.2 = k2.1.2 /\ k1.2 = k2.2.
Proof.
  destruct k1 as [[d1 e1] c1], k2 as [[d2 e2] c2]. unfold key_lt.
  split_comparisons; intros H12 H21; try done; try lia; try q_order.
  repeat split; [done..|].
  destruct (str_lt_total c1 c2) as [Hs|[->|Hs]]; congruence.
Qed.

End KeyOrder.

(* ================================================================== *)
(** ** The candidates collected by the loop *)
(* ================================================================== *)

Section Candidates.
Context (w : World) (t : datetime) (user : UserInfo) (cart : Cart).

Lemma consider_survives candidates entry :
  consider w t user cart candidates entry =
  if survives w t user cart entry
  then candidates ++ [candidate_of cart entry]
  else candidates.
Proof.
  destruct entry as [k c]. unfold consider, survives, candidate_of. simpl.
  destruct (is_within_validity w c (Some t)); simpl; [|done].
  destruct (usageLimitPerUser c <=? _); simpl; [done|].
  destruct (check_eligibility c user cart); simpl; [|done].
  by destruct (Py.fle _ 0).
Qed.

Lemma fold_consider coupons acc :
  fold_left (consider w t user cart) coupons acc =
  acc ++ (candidate_of cart <$> filter (fun e => survives w t user cart e) coupons).
Proof.
  revert acc. induction coupons as [|e coupons IH]; intros acc; simpl.
  - by rewrite app_nil_r.
  - rewrite IH, consider_survives, filter_cons.
    destruct (survives w t user cart e) eqn:E.
    + rewrite decide_True by done. by rewrite <- app_assoc.
    + by rewrite decide_False by (simpl; tauto).
Qed.

Lemma collect_candidates_filter :
  collect_candidates w t user cart =
  candidate_of cart <$> filter (fun e => survives w t user cart e) (COUPONS w).
Proof. unfold collect_candidates. by rewrite fold_consider. Qed.

(** Membership in the candidate list. *)
Lemma elem_of_collect_candidates x :
  x ∈ collect_candidates w t user cart <->
  exists entry, entry ∈ COUPONS w
                /\ survives w t user cart entry = true
                /\ x = candidate_of cart entry.
Proof.
  rewrite collect_candidates_filter, list_elem_of_fmap.
  split.
  - intros (e & -> & He). apply list_elem_of_filter in He as [Hs He].
    exists e. split; [done|]. split; [by apply Is_true_true|done].
  - intros (e & He & Hs & ->). exists e. split; [done|].
    apply list_elem_of_filter. split; [by apply Is_true_true|done].
Qed.

End Candidates.

(* ================================================================== *)
(** ** What a returned selection tells about the collection *)
(* ================================================================== *)

Lemma key_lt_wins_over x y :
  key_lt (sort_key x) (sort_key y) = true <-> wins_over x y.
Proof.
  unfold sort_key, key_lt, wins_over, Py.str_lt, String.ltb.
  set (dx := cand_discount x). set (dy := cand_discount y).
  assert (Hopp_lt : (- dx < - dy)%Q <-> (dy < dx)%Q).
  { split; intros H.
    - apply Qopp_lt_compat in H. by rewrite !Qopp_involutive in H.
    - by apply Qopp_lt_compat. }
  assert (Hopp_eq : (- dx == - dy)%Q <-> (dx == dy)%Q).
  { split; intros H.
    - by rewrite <- (Qopp_involutive dx), H, Qopp_involutive.
    - by rewrite H. }
  destruct (Py.feq (- dx) (- dy)) eqn:E1; simpl.
  - apply feq_true, Hopp_eq in E1.
    destruct (Z.eqb_spec (endDate (cand_coupon x)) (endDate (cand_coupon y)))
      as [E2|E2]; simpl.
    + destruct (_ ?= _)%string eqn:E3; split; try done.
      * intros [?|[[_ ?]|(_ & _ & ?)]]; [q_order|lia|done].
      * intros _. right; right. done.
      * intros [?|[[_ ?]|(_ & _ & ?)]]; [q_order|lia|done].
    + rewrite Z.ltb_lt. split.
      * intros ?. right; left. done.
      * intros [?|[[_ ?]|(_ & ? & _)]]; [q_order|done|done].
  - apply feq_false in E1. rewrite Hopp_eq in E1.
    rewrite flt_true, Hopp_lt. split; [by left|].
    intros [?|[[? _]|[? _]]]; [done|contradiction..].
Qed.

Lemma distinct_codes_inj coupons e1 e2 :
  distinct_codes coupons ->
  e1 ∈ coupons -> e2 ∈ coupons -> code e1.2 = code e2.2 -> e1 = e2.
Proof.
  unfold distinct_codes. induction coupons as [|e coupons IH]; simpl.
  - by intros _ ?%elem_of_nil.
  - intros [Hnotin Hnd]%NoDup_cons H1 H2 Hc.
    apply elem_of_cons in H1 as [->|H1], H2 as [->|H2]; [done| | |by apply IH].
    + exfalso. apply Hnotin. rewrite Hc.
      apply list_elem_of_fmap. by exists e2.
    + exfalso. apply Hnotin. rewrite <- Hc.
      apply list_elem_of_fmap. by exists e1.
Qed.

Section Selection.
Context (w : World) (user : UserInfo) (cart : Cart).

(** The early return on an empty candidate list agrees with looking at the
    front of the sorted list. *)
Lemma best_coupon_sorted flag :
  best_coupon w user cart flag =
  selection_for w user flag
    <$> head (Py.sort key_lt sort_key
                (collect_candidates w (now_utc w) user cart)).
Proof.
  unfold best_coupon, selection_for.
  destruct (collect_candidates w (now_utc w) user cart) as [|c l]; [done|].
  by destruct (Py.sort _ _ _).
Qed.

Lemma best_coupon_None flag :
  best_coupon w user cart flag = None <->
  collect_candidates w (now_utc w) user cart = [].
Proof.
  rewrite best_coupon_sorted.
  destruct (Py.sort _ _ _) as [|top rest] eqn:Hs; simpl.
  - split; [|done]. intros _. by apply sort_nil_inv in Hs.
  - split; [done|]. intros Hnil. by rewrite Hnil in Hs.
Qed.

(** A returned selection is built from an entry of [COUPONS] that passed
    all four checks and whose key no surviving entry undercuts. *)
Lemma best_coupon_Some flag sel :
  best_coupon w user cart flag = Some sel ->
  exists entry,
    entry ∈ COUPONS w
    /\ survives w (now_utc w) user cart entry = true
    /\ sel_coupon sel = entry.2
    /\ computedDiscount sel = Py.round (calculate_discount entry.2 cart) 2
    /\ projectedUsageForUser sel =
         (if flag
          then Some (user_usage_for_coupon w (code entry.2) (userId user) + 1)
          else None)
    /\ sel_usageLimitPerUser sel =
         (if flag then Some (usageLimitPerUser entry.2) else None)
    /\ forall other,
         other ∈ COUPONS w ->
         survives w (now_utc w) user cart other = true ->
         key_lt (sort_key (candidate_of cart other))
                (sort_key (candidate_of cart entry)) = false.
Proof.
  rewrite best_coupon_sorted.
  destruct (Py.sort _ _ _) as [|top rest] eqn:Hs; [done|].
  intros [= <-]. unfold selection_for.
  apply (sort_head_least key_lt sort_key key_lt_asym key_lt_negtrans)
    in Hs as [Hin Hleast].
  apply elem_of_collect_candidates in Hin as (entry & He & Hsurv & ->).
  exists entry. split; [done|]. split; [done|].
  split; [by destruct flag|]. split; [by destruct flag|].
  split; [by destruct flag|]. split; [by destruct flag|].
  intros other Ho Hso. apply Hleast.
  apply elem_of_collect_candidates. by exists other.
Qed.

End Selection.

(* ================================================================== *)
(** ** Determinism and the clock *)
(* ================================================================== *)

(** The checks of the loop body look at the world through the usage lookup
    only, once the reference time is fixed. *)
Lemma survives_agree w1 w2 t user cart entry :
  (forall c uid, user_usage_for_coupon w1 c uid = user_usage_for_coupon w2 c uid) ->
  survives w1 t user cart entry = survives w2 t user cart entry.
Proof. intros Hu. unfold survives. by rewrite Hu. Qed.

Lemma collect_candidates_agree w1 w2 t user cart :
  COUPONS w1 = COUPONS w2 ->
  (forall c uid, user_usage_for_coupon w1 c uid = user_usage_for_coupon w2 c uid) ->
  collect_candidates w1 t user cart = collect_candidates w2 t user cart.
Proof.
  intros Hc Hu. unfold collect_candidates. rewrite Hc. clear Hc.
  generalize (@nil Candidate).
  induction (COUPONS w2) as [|e l IH]; intros acc; simpl; [done|].
  rewrite !consider_survives, (survives_agree w1 w2) by done. apply IH.
Qed.

(** C1, as stated, fails: [best_coupon] has no time argument and reads the
    clock itself. With the same user, cart, coupon collection, usage counts
    and flag, an evaluation at time 50 returns a coupon and an evaluation at
    time 200 returns none. *)
Lemma best_coupon_reads_the_clock :
  COUPONS (Demo.world 50 [Demo.coupon_A]) = COUPONS (Demo.world 200 [Demo.coupon_A])
  /\ USAGE (Demo.world 50 [Demo.coupon_A]) = USAGE (Demo.world 200 [Demo.coupon_A])
  /\ best_coupon (Demo.world 50 [Demo.coupon_A]) Demo.shopper Demo.cart_200 false
     <> best_coupon (Demo.world 200 [Demo.coupon_A]) Demo.shopper Demo.cart_200 false.
Proof.
  split; [reflexivity|]. split; [reflexivity|].
  vm_compute. discriminate.
Qed.

(** C1, amended: [best_coupon] reads the current time from the clock, once,
    and its result is a function of that reading together with the user,
    the cart, the coupon collection, the usage lookup and the projection
    flag: two evaluations that agree on all of these return the identical
    result. *)
Theorem best_coupon_deterministic w1 w2 user cart flag :
  now_utc w1 = now_utc w2 ->
  COUPONS w1 = COUPONS w2 ->
  (forall c uid, user_usage_for_coupon w1 c uid = user_usage_for_coupon w2 c uid) ->
  best_coupon w1 user cart flag = best_coupon w2 user cart flag.
Proof.
  intros Ht Hc Hu. rewrite !best_coupon_sorted.
  rewrite Ht, (collect_candidates_agree w1 w2) by done.
  destruct (Py.sort _ _ _) as [|top rest]; [done|].
  simpl. unfold selection_for. by rewrite Hu.
Qed.

Lemma best_coupon_deterministic_witness :
  best_coupon (Demo.world 50 [Demo.coupon_A; Demo.coupon_B])
              Demo.shopper Demo.cart_200 true
  = best_coupon {| clock := 50;
                   COUPONS := Demo.store [Demo.coupon_A; Demo.coupon_B];
                   USAGE := <[ "Z"%string := ∅ ]> Demo.usage |}
                Demo.shopper Demo.cart_200 true.
Proof.
  apply best_coupon_deterministic; [reflexivity|reflexivity|].
  intros c uid. unfold user_usage_for_coupon. simpl.
  destruct (decide (c = "Z"%string)) as [->|Hne].
  - rewrite lookup_insert_eq. reflexivity.
  - rewrite lookup_insert_ne by done. reflexivity.
Defined.

(* ================================================================== *)
(** ** The test on the discount *)
(* ================================================================== *)

Lemma round_half_even_nonneg x : (0 <= x)%Q -> 0 <= Py.round_half_even x.
Proof.
  intros Hx. unfold Py.round_half_even.
  assert (0 <= Qfloor x) by (by apply (Qfloor_resp_le 0 x)).
  destruct (_ ?= _)%Q; [destruct (Z.even _)|..]; lia.
Qed.

(** A non-negative amount stays non-negative when rounded to cents. *)
Lemma round_nonneg x : (0 <= x)%Q -> (0 <= Py.round x 2)%Q.
Proof.
  intros Hx. unfold Py.round.
  apply Qle_shift_div_l; [done|]. rewrite Qmult_0_l.
  change 0%Q with (inject_Z 0). rewrite <- Zle_Qle.
  apply round_half_even_nonneg.
  apply Qmult_le_0_compat; [done|]. done.
Qed.

(** C2, as stated, fails: the loop tests the discount before rounding it.
    One percent of a cart worth 0.40 is 0.004, which is positive, so the
    coupon becomes a candidate and is selected; its rounded discount is
    0.00. *)
Lemma best_coupon_selects_zero_rounded_discount :
  exists sel,
    best_coupon (Demo.world 50 [Demo.coupon_P]) Demo.shopper Demo.cart_small false
      = Some sel
    /\ sel_coupon sel = Demo.coupon_P
    /\ (0 < calculate_discount Demo.coupon_P Demo.cart_small)%Q
    /\ (computedDiscount sel <= 0)%Q.
Proof.
  eexists. split; [vm_compute; reflexivity|].
  split; [reflexivity|]. split; by vm_compute.
Qed.

(** C2, amended: a coupon that passes the validity, usage and eligibility
    checks is rejected exactly when its discount before rounding is not
    positive; otherwise it becomes a candidate, paired with its discount
    rounded to 2 decimal places, which is not negative. A selected coupon
    therefore has a positive discount before rounding. *)
Theorem candidate_iff_positive_discount w t user cart candidates k c :
  is_within_validity w c (Some t) = true ->
  user_usage_for_coupon w k (userId user) < usageLimitPerUser c ->
  check_eligibility c user cart = true ->
  ((calculate_discount c cart <= 0)%Q ->
     consider w t user cart candidates (k, c) = candidates)
  /\ ((0 < calculate_discount c cart)%Q ->
        consider w t user cart candidates (k, c) =
          candidates ++ [ {| cand_coupon := c;
                             cand_discount := Py.round (calculate_discount c cart) 2 |} ]
        /\ (0 <= Py.round (calculate_discount c cart) 2)%Q)
  /\ (forall flag sel,
        best_coupon w user cart flag = Some sel ->
        (0 < calculate_discount (sel_coupon sel) cart)%Q
        /\ (0 <= computedDiscount sel)%Q).
Proof.
  intros Hvalid Husage Helig.
  assert (Hstep : consider w t user cart candidates (k, c) =
                  if Py.fle (calculate_discount c cart) 0 then candidates
                  else candidates ++ [candidate_of cart (k, c)]).
  { rewrite consider_survives. unfold survives. simpl.
    rewrite Hvalid, Helig.
    replace (usageLimitPerUser c <=? _) with false
      by (symmetry; apply Z.leb_gt; done).
    simpl. by destruct (Py.fle _ 0). }
  split; [|split].
  - intros Hle. apply fle_true in Hle. by rewrite Hstep, Hle.
  - intros Hpos. split.
    + apply fle_false in Hpos. by rewrite Hstep, Hpos.
    + apply round_nonneg. q_order.
  - intros flag sel Hsel.
    apply best_coupon_Some in Hsel
      as (entry & _ & Hsurv & -> & -> & _).
    unfold survives in Hsurv.
    apply andb_true_iff in Hsurv as [_ Hpos].
    apply negb_true_iff, fle_false in Hpos.
    split; [done|]. apply round_nonneg. q_order.
Qed.

Lemma candidate_iff_positive_discount_witness :
  consider (Demo.world 50 [Demo.coupon_P]) 50 Demo.shopper Demo.cart_small []
           ("P"%string, Demo.coupon_P)
  = [ {| cand_coupon := Demo.coupon_P;
         cand_discount :=
           Py.round (calculate_discount Demo.coupon_P Demo.cart_small) 2 |} ].
Proof.
  refine (proj1 (proj1 (proj2
    (candidate_iff_positive_discount (Demo.world 50 [Demo.coupon_P]) 50
       Demo.shopper Demo.cart_small [] "P"%string Demo.coupon_P _ _ _)) _)).
  - reflexivity.
  - vm_compute. reflexivity.
  - reflexivity.
  - vm_compute. reflexivity.
Defined.

(* ================================================================== *)
(** ** The tie-break chain *)
(* ================================================================== *)

(** The facts about the loop and the sort, for the selector with its three
    computations as parameters. *)
Section SelectorFacts.
Context (eligible : Coupon -> UserInfo -> Cart -> bool)
        (discount_of : Coupon -> Cart -> Q)
        (rounded : Q -> Q).
Context (w : World) (user : UserInfo) (cart : Cart).

Local Abbreviation passes :=
  (passes_with eligible discount_of w (now_utc w) user cart).
Local Abbreviation candidate := (candidate_with discount_of rounded cart).

Lemma consider_with_passes t candidates entry :
  consider_with eligible discount_of rounded w t user cart candidates entry =
  if passes_with eligible discount_of w t user cart entry
  then candidates ++ [candidate entry]
  else candidates.
Proof.
  destruct entry as [k c].
  unfold consider_with, passes_with, candidate_with. simpl.
  destruct (is_within_validity w c (Some t)); simpl; [|done].
  destruct (usageLimitPerUser c <=? _); simpl; [done|].
  destruct (eligible c user cart); simpl; [|done].
  by destruct (Py.fle _ 0).
Qed.

Lemma collect_candidates_with_filter :
  collect_candidates_with eligible discount_of rounded w (now_utc w) user cart =
  candidate <$> filter (fun e => passes e) (COUPONS w).
Proof.
  unfold collect_candidates_with.
  assert (Hfold : forall coupons acc,
            fold_left (consider_with eligible discount_of rounded w (now_utc w)
                         user cart) coupons acc
            = acc ++ (candidate <$> filter (fun e => passes e) coupons)).
  { induction coupons as [|e coupons IH]; intros acc; simpl.
    - by rewrite app_nil_r.
    - rewrite IH, consider_with_passes, filter_cons.
      destruct (passes_with eligible discount_of w (now_utc w) user cart e).
      + rewrite decide_True by done. by rewrite <- app_assoc.
      + by rewrite decide_False by (simpl; tauto). }
  by rewrite Hfold.
Qed.

Lemma elem_of_collect_candidates_with x :
  x ∈ collect_candidates_with eligible discount_of rounded w (now_utc w)
        user cart
  <-> exists entry, entry ∈ COUPONS w /\ passes entry = true
                    /\ x = candidate entry.
Proof.
  rewrite collect_candidates_with_filter, list_elem_of_fmap. split.
  - intros (e & -> & [Hs He]%list_elem_of_filter).
    exists e. split; [done|]. split; [by apply Is_true_true|done].
  - intros (e & He & Hs & ->). exists e. split; [done|].
    apply list_elem_of_filter. split; [by apply Is_true_true|done].
Qed.

Lemma passes_with_true k c :
  passes (k, c) = true <->
  is_within_validity w c (Some (now_utc w)) = true
  /\ user_usage_for_coupon w k (userId user) < usageLimitPerUser c
  /\ eligible c user cart = true
  /\ (0 < discount_of c cart)%Q.
Proof.
  unfold passes_with. simpl.
  rewrite !andb_true_iff, !negb_true_iff, Z.leb_gt, fle_false. tauto.
Qed.

(** The early return on an empty candidate list agrees with looking at
    the front of the sorted list. *)
Lemma best_coupon_with_sorted flag :
  best_coupon_with eligible discount_of rounded w user cart flag =
  selection_for w user flag
    <$> head (Py.sort key_lt sort_key
                (collect_candidates_with eligible discount_of rounded w
                   (now_utc w) user cart)).
Proof.
  unfold best_coupon_with, selection_for.
  destruct (collect_candidates_with _ _ _ _ _ _ _) as [|c l]; [done|].
  by destruct (Py.sort _ _ _).
Qed.

Lemma best_coupon_with_None flag :
  best_coupon_with eligible discount_of rounded w user cart flag = None <->
  collect_candidates_with eligible discount_of rounded w (now_utc w) user cart
    = [].
Proof.
  rewrite best_coupon_with_sorted.
  destruct (Py.sort _ _ _) as [|top rest] eqn:Hs; simpl.
  - split; [|done]. intros _. by apply sort_nil_inv in Hs.
  - split; [done|]. intros Hnil. by rewrite Hnil in Hs.
Qed.

(** A returned selection is built from an entry of [COUPONS] that passed
    the four checks and whose key no passing entry undercuts. *)
Lemma best_coupon_with_Some flag sel :
  best_coupon_with eligible discount_of rounded w user cart flag = Some sel ->
  exists entry,
    entry ∈ COUPONS w
    /\ passes entry = true
    /\ sel_coupon sel = entry.2
    /\ computedDiscount sel = rounded (discount_of entry.2 cart)
    /\ projectedUsageForUser sel =
         (if flag
          then Some (user_usage_for_coupon w (code entry.2) (userId user) + 1)
          else None)
    /\ sel_usageLimitPerUser sel =
         (if flag then Some (usageLimitPerUser entry.2) else None)
    /\ forall other,
         other ∈ COUPONS w ->
         passes other = true ->
         key_lt (sort_key (candidate other)) (sort_key (candidate entry))
           = false.
Proof.
  rewrite best_coupon_with_sorted.
  destruct (Py.sort _ _ _) as [|top rest] eqn:Hs; [done|].
  intros [= <-]. unfold selection_for.
  apply (sort_head_least key_lt sort_key key_lt_asym key_lt_negtrans)
    in Hs as [Hin Hleast].
  apply elem_of_collect_candidates_with in Hin as (entry & He & Hsurv & ->).
  exists entry. split; [done|]. split; [done|].
  split; [by destruct flag|]. split; [by destruct flag|].
  split; [by destruct flag|]. split; [by destruct flag|].
  intros other Ho Hso. apply Hleast.
  apply elem_of_collect_candidates_with. by exists other.
Qed.

End SelectorFacts.

(** [best_coupon] is the selector with [check_eligibility],
    [calculate_discount] and [round(_, 2)] in the three places. *)
Lemma best_coupon_with_instance w user cart flag :
  best_coupon_with check_eligibility calculate_discount
    (fun disc => Py.round disc 2) w user cart flag
  = best_coupon w user cart flag.
Proof. reflexivity. Qed.

(** C3: among the candidates that survive the four checks, the coupon
    returned is the one that comes first in the chain: it is itself a
    survivor, the reported discount is its own rounded discount, and it
    wins over every other survivor by a higher rounded discount, or on
    equal rounded discounts by an earlier end date, or on equal rounded
    discounts and end dates by a lexicographically smaller code. This holds
    whatever the eligibility check, the discount calculation and the
    rounding compute; [best_coupon] is the case of [check_eligibility],
    [calculate_discount] and [round(_, 2)]. *)
Theorem best_coupon_wins_tie_break
    eligible discount_of rounded w user cart flag sel :
  distinct_codes (COUPONS w) ->
  best_coupon_with eligible discount_of rounded w user cart flag = Some sel ->
  (exists k,
     (k, sel_coupon sel) ∈ COUPONS w
     /\ is_within_validity w (sel_coupon sel) (Some (now_utc w)) = true
     /\ user_usage_for_coupon w k (userId user)
        < usageLimitPerUser (sel_coupon sel)
     /\ eligible (sel_coupon sel) user cart = true
     /\ (0 < discount_of (sel_coupon sel) cart)%Q)
  /\ computedDiscount sel = rounded (discount_of (sel_coupon sel) cart)
  /\ forall k c,
       (k, c) ∈ COUPONS w ->
       is_within_validity w c (Some (now_utc w)) = true ->
       user_usage_for_coupon w k (userId user) < usageLimitPerUser c ->
       eligible c user cart = true ->
       (0 < discount_of c cart)%Q ->
       c <> sel_coupon sel ->
       wins_over {| cand_coupon := sel_coupon sel;
                    cand_discount := computedDiscount sel |}
                 {| cand_coupon := c;
                    cand_discount := rounded (discount_of c cart) |}.
Proof.
  intros Hdistinct Hsel.
  apply best_coupon_with_Some in Hsel
    as ([k0 c0] & Hin & Hpass & Hc & Hd & _ & _ & Hleast).
  simpl in Hc, Hd. rewrite Hc, Hd.
  pose proof (proj1 (passes_with_true _ _ _ _ _ _ _) Hpass)
    as (Hv & Hu & He & Hpos).
  split; [by exists k0|]. split; [done|].
  intros k c Hin' Hv' Hu' He' Hpos' Hne.
  assert (Hpass' : passes_with eligible discount_of w (now_utc w) user cart
                     (k, c) = true) by (by apply passes_with_true).
  change {| cand_coupon := c0; cand_discount := _ |}
    with (candidate_with discount_of rounded cart (k0, c0)).
  change {| cand_coupon := c; cand_discount := _ |}
    with (candidate_with discount_of rounded cart (k, c)).
  apply key_lt_wins_over.
  destruct (key_lt (sort_key (candidate_with discount_of rounded cart (k0, c0)))
                   (sort_key (candidate_with discount_of rounded cart (k, c))))
    eqn:Hlt; [done|].
  exfalso. apply Hne.
  pose proof (key_lt_tie _ _ (Hleast (k, c) Hin' Hpass') Hlt)
    as (_ & _ & Hcode).
  simpl in Hcode.
  pose proof (distinct_codes_inj _ (k, c) (k0, c0) Hdistinct Hin' Hin Hcode)
    as Heq.
  by injection Heq.
Qed.

(** Two coupons worth 18.00 each pass the checks together with one worth
    15.00: the one that ends earlier is returned by [best_coupon], and it
    wins over the one that ends later. *)
Lemma best_coupon_wins_tie_break_witness :
  best_coupon
    {| clock := 50;
       COUPONS := Demo.store [Demo.coupon_C; Demo.coupon_A; Demo.coupon_B];
       USAGE := ∅ |}
    Demo.shopper Demo.cart_200 false
  = Some {| sel_coupon := Demo.coupon_B; computedDiscount := 18.00;
            projectedUsageForUser := None; sel_usageLimitPerUser := None |}
  /\ 18.00%Q = Py.round (calculate_discount Demo.coupon_B Demo.cart_200) 2
  /\ wins_over {| cand_coupon := Demo.coupon_B; cand_discount := 18.00 |}
               {| cand_coupon := Demo.coupon_C;
                  cand_discount :=
                    Py.round (calculate_discount Demo.coupon_C Demo.cart_200) 2 |}.
Proof.
  set (w := {| clock := 50;
               COUPONS := Demo.store [Demo.coupon_C; Demo.coupon_A; Demo.coupon_B];
               USAGE := ∅ |}).
  set (sel := {| sel_coupon := Demo.coupon_B; computedDiscount := 18.00;
                 projectedUsageForUser := None;
                 sel_usageLimitPerUser := None |}).
  assert (Hsel : best_coupon w Demo.shopper Demo.cart_200 false = Some sel)
    by (vm_compute; reflexivity).
  assert (Hdistinct : distinct_codes (COUPONS w))
    by (unfold distinct_codes; simpl; compute_done).
  pose proof (best_coupon_wins_tie_break check_eligibility calculate_discount
                (fun disc => Py.round disc 2) w Demo.shopper Demo.cart_200
                false sel Hdistinct Hsel) as (_ & Hd & Hwins).
  split; [exact Hsel|]. split; [exact Hd|].
  apply (Hwins "C"%string Demo.coupon_C).
  - simpl. repeat constructor.
  - reflexivity.
  - vm_compute. reflexivity.
  - reflexivity.
  - vm_compute. reflexivity.
  - discriminate.
Defined.

(* ================================================================== *)
(** ** Independence of the iteration order *)
(* ================================================================== *)

(** C4: with pairwise distinct codes, reordering the coupon collection
    leaves the result of [best_coupon] unchanged. *)
Theorem best_coupon_permutation_invariant t usage coupons coupons' user cart flag :
  distinct_codes coupons ->
  coupons ≡ₚ coupons' ->
  best_coupon {| clock := t; COUPONS := coupons'; USAGE := usage |} user cart flag
  = best_coupon {| clock := t; COUPONS := coupons; USAGE := usage |} user cart flag.
Proof.
  intros Hdistinct Hperm.
  set (w := {| clock := t; COUPONS := coupons; USAGE := usage |}).
  set (w' := {| clock := t; COUPONS := coupons'; USAGE := usage |}).
  assert (Hcands : collect_candidates w' t user cart
                   ≡ₚ collect_candidates w t user cart).
  { rewrite !collect_candidates_filter. simpl.
    change (survives w' t user cart) with (survives w t user cart).
    by rewrite Hperm. }
  destruct (best_coupon w user cart flag) as [sel|] eqn:Hsel;
    destruct (best_coupon w' user cart flag) as [sel'|] eqn:Hsel'.
  - apply best_coupon_Some in Hsel
      as (e & He & Hs & Hc & Hd & Hp & Hl & Hleast).
    apply best_coupon_Some in Hsel'
      as (e' & He' & Hs' & Hc' & Hd' & Hp' & Hl' & Hleast').
    simpl in He, He'.
    change (now_utc w') with t in *. change (now_utc w) with t in *.
    change (survives w' t user cart) with (survives w t user cart) in *.
    assert (He'in : e' ∈ coupons) by (by rewrite Hperm).
    assert (Hein : e ∈ coupons') by (by rewrite <- Hperm).
    pose proof (key_lt_tie _ _ (Hleast e' He'in Hs') (Hleast' e Hein Hs))
      as (_ & _ & Hcode).
    simpl in Hcode.
    pose proof (distinct_codes_inj _ e' e Hdistinct He'in He Hcode) as ->.
    change (user_usage_for_coupon w') with (user_usage_for_coupon w) in Hp'.
    destruct sel, sel'.
    cbn [sel_coupon computedDiscount projectedUsageForUser
         sel_usageLimitPerUser] in *.
    congruence.
  - apply best_coupon_None in Hsel'. simpl in Hsel'.
    apply best_coupon_Some in Hsel as (e & He & Hs & _).
    assert (candidate_of cart e ∈ collect_candidates w t user cart)
      by (apply elem_of_collect_candidates; by exists e).
    rewrite <- Hcands, Hsel' in H. by apply elem_of_nil in H.
  - apply best_coupon_None in Hsel. simpl in Hsel.
    apply best_coupon_Some in Hsel' as (e & He & Hs & _).
    assert (candidate_of cart e ∈ collect_candidates w' t user cart)
      by (apply elem_of_collect_candidates; by exists e).
    rewrite Hcands, Hsel in H. by apply elem_of_nil in H.
  - done.
Qed.

Lemma best_coupon_permutation_invariant_witness :
  best_coupon (Demo.world 50 [Demo.coupon_B; Demo.coupon_C; Demo.coupon_A])
              Demo.shopper Demo.cart_200 true
  = best_coupon (Demo.world 50 [Demo.coupon_A; Demo.coupon_B; Demo.coupon_C])
                Demo.shopper Demo.cart_200 true.
Proof.
  apply best_coupon_permutation_invariant.
  - unfold distinct_codes. simpl. compute_done.
  - unfold Demo.store. simpl.
    apply (Permutation_cons_app [_; _] []). reflexivity.
Defined.

(* ================================================================== *)
(** ** The discount calculator *)
(* ================================================================== *)

(** A validated cart is worth a non-negative amount. *)
Lemma fold_total_nonneg l acc :
  Forall (fun i => CartItem_errors i = []) l ->
  (0 <= acc)%Q ->
  (0 <= fold_left (fun acc item =>
                     (acc + unitPrice item * inject_Z (quantity item))%Q) l acc)%Q.
Proof.
  intros Hl. revert acc.
  induction Hl as [|i l Hi _ IH]; intros acc Hacc; simpl; [done|].
  apply IH. unfold CartItem_errors, constraint in Hi.
  destruct (Py.fle 0 (unitPrice i)) eqn:Hp; [|done].
  destruct (1 <=? quantity i) eqn:Hq; [|done].
  apply fle_true in Hp. apply Z.leb_le in Hq.
  assert (0 <= inject_Z (quantity i))%Q
    by (change 0%Q with (inject_Z 0); rewrite <- Zle_Qle; lia).
  assert (0 <= unitPrice i * inject_Z (quantity i))%Q
    by (by apply Qmult_le_0_compat).
  rewrite <- (Qplus_0_r 0). by apply Qplus_le_compat.
Qed.

Lemma Cart_new_items cart :
  Cart_new cart = Built cart ->
  Forall (fun i => CartItem_errors i = []) (items cart).
Proof.
  unfold Cart_new, finish.
  destruct (concat _) eqn:Hc; [|done]. intros _.
  induction (items cart) as [|i l IH]; simpl in *; [constructor|].
  apply app_eq_nil in Hc as [Hi Hl]. constructor; [done|by apply IH].
Qed.

Lemma total_value_nonneg cart :
  Cart_new cart = Built cart -> (0 <= total_value cart)%Q.
Proof.
  intros H. apply fold_total_nonneg; [by apply Cart_new_items|done].
Qed.

(** C5: [calculate_discount] is the reference definition, whatever the
    coupon and the cart; and for a cart that passed construction the
    discount lies between 0 and the cart total. *)
Theorem calculate_discount_reference coupon cart :
  calculate_discount coupon cart = computeDiscount coupon cart
  /\ (Cart_new cart = Built cart ->
      (0 <= calculate_discount coupon cart)%Q
      /\ (calculate_discount coupon cart <= total_value cart)%Q).
Proof.
  assert (Heq : calculate_discount coupon cart = computeDiscount coupon cart).
  { unfold calculate_discount, computeDiscount, clamp.
    rewrite py_max_Qmax, py_min_Qmin.
    destruct (discountType coupon); [done|].
    destruct (maxDiscountAmount coupon); [|done].
    by rewrite py_min_Qmin. }
  split; [done|]. intros Hcart. rewrite Heq.
  pose proof (total_value_nonneg cart Hcart) as Htotal.
  unfold computeDiscount, clamp. split.
  - apply Q.le_max_l.
  - apply Q.max_lub; [done|]. apply Q.le_min_r.
Qed.

Lemma calculate_discount_reference_witness :
  (0 <= calculate_discount Demo.coupon_A Demo.cart_200)%Q
  /\ (calculate_discount Demo.coupon_A Demo.cart_200
      <= total_value Demo.cart_200)%Q.
Proof.
  apply (proj2 (calculate_discount_reference Demo.coupon_A Demo.cart_200)).
  reflexivity.
Defined.

(* ================================================================== *)
(** ** The store invariant *)
(* ================================================================== *)

(** [create_coupon] keeps every coupon under its own code, and keeps the
    codes distinct. *)
Lemma create_coupon_keyed w coupon w' :
  keyed_by_code (COUPONS w) ->
  create_coupon w coupon = Some w' ->
  keyed_by_code (COUPONS w').
Proof.
  unfold create_coupon, keyed_by_code. intros Hk.
  case_bool_decide; [done|]. intros [= <-]. simpl.
  apply Forall_app. split; [done|]. by constructor.
Qed.

Lemma keyed_by_code_fst coupons :
  keyed_by_code coupons ->
  map fst coupons = map (fun entry => code entry.2) coupons.
Proof.
  induction 1 as [|e l He _ IH]; simpl; [done|]. by rewrite He, IH.
Qed.

Lemma create_coupon_distinct w coupon w' :
  keyed_by_code (COUPONS w) ->
  distinct_codes (COUPONS w) ->
  create_coupon w coupon = Some w' ->
  distinct_codes (COUPONS w').
Proof.
  unfold create_coupon, distinct_codes. intros Hk Hd.
  case_bool_decide as Hnew; [done|]. intros [= <-]. simpl.
  rewrite map_app. simpl. apply NoDup_app. split; [done|]. split.
  - intros c Hc ->%list_elem_of_singleton.
    apply Hnew. by rewrite keyed_by_code_fst.
  - apply NoDup_singleton.
Qed.

Lemma store_keyed coupons : keyed_by_code (Demo.store coupons).
Proof.
  unfold keyed_by_code, Demo.store.
  induction coupons; simpl; by constructor.
Qed.

(* ================================================================== *)
(** ** The usage limit *)
(* ================================================================== *)

(** C6: a coupon of the collection whose usage count for the user has
    reached its limit is never the coupon [best_coupon] returns. *)
Theorem usage_limit_reached_never_selected w user cart flag k c :
  keyed_by_code (COUPONS w) ->
  (k, c) ∈ COUPONS w ->
  usageLimitPerUser c <= user_usage_for_coupon w (code c) (userId user) ->
  forall sel, best_coupon w user cart flag = Some sel -> sel_coupon sel <> c.
Proof.
  intros Hkeyed _ Hused sel Hsel Heq.
  apply best_coupon_Some in Hsel as (e & He & Hsurv & Hc & _).
  unfold keyed_by_code in Hkeyed. rewrite Forall_forall in Hkeyed.
  specialize (Hkeyed e He). simpl in Hkeyed.
  unfold survives in Hsurv.
  apply andb_true_iff in Hsurv as [Hsurv _].
  apply andb_true_iff in Hsurv as [Hsurv _].
  apply andb_true_iff in Hsurv as [_ Hlimit].
  apply negb_true_iff, Z.leb_gt in Hlimit.
  rewrite Hkeyed, <- Hc, Heq in Hlimit. lia.
Qed.

(** The shopper has used up [coupon_C], worth 18.00; the 15.00 of
    [coupon_A] is returned instead. *)
Lemma usage_limit_reached_never_selected_witness :
  usageLimitPerUser Demo.coupon_C
    <= user_usage_for_coupon (Demo.world 50 [Demo.coupon_A; Demo.coupon_C])
         (code Demo.coupon_C) (userId Demo.shopper)
  /\ best_coupon (Demo.world 50 [Demo.coupon_A; Demo.coupon_C])
                 Demo.shopper Demo.cart_200 false
     = Some {| sel_coupon := Demo.coupon_A; computedDiscount := 15.00;
               projectedUsageForUser := None; sel_usageLimitPerUser := None |}
  /\ Demo.coupon_A <> Demo.coupon_C.
Proof.
  assert (Hused : usageLimitPerUser Demo.coupon_C
            <= user_usage_for_coupon
                 (Demo.world 50 [Demo.coupon_A; Demo.coupon_C])
                 (code Demo.coupon_C) (userId Demo.shopper))
    by (vm_compute; discriminate).
  assert (Hsel : best_coupon (Demo.world 50 [Demo.coupon_A; Demo.coupon_C])
                   Demo.shopper Demo.cart_200 false
                 = Some {| sel_coupon := Demo.coupon_A;
                           computedDiscount := 15.00;
                           projectedUsageForUser := None;
                           sel_usageLimitPerUser := None |})
    by (vm_compute; reflexivity).
  split; [exact Hused|]. split; [exact Hsel|].
  refine (usage_limit_reached_never_selected
            (Demo.world 50 [Demo.coupon_A; Demo.coupon_C])
            Demo.shopper Demo.cart_200 false "C"%string Demo.coupon_C
            _ _ Hused _ Hsel).
  - apply store_keyed.
  - simpl. repeat constructor.
Defined.

(* ================================================================== *)
(** ** The validity window *)
(* ================================================================== *)




(* ================================================================== *)
(** ** Construction-time validation *)
(* ================================================================== *)

Lemma finish_rejected {A} (a : A) errors :
  errors <> [] -> is_rejected (finish a errors) = true.
Proof. by destruct errors. Qed.

(** C8: construction rejects a coupon whose end date is not after its
    start date, whose discount value is not positive, or whose usage limit
    is below 1; a cart item with a negative unit price or a quantity that is
    not positive, and a cart that holds such an item; a user with a
    negative lifetime spend or a negative number of orders. *)
Theorem construction_rejects_invalid :
  (forall c,
     endDate c <= startDate c \/ (discountValue c <= 0)%Q
     \/ usageLimitPerUser c < 1 ->
     is_rejected (Coupon_new c) = true)
  /\ (forall i,
        (unitPrice i < 0)%Q \/ quantity i <= 0 ->
        is_rejected (CartItem_new i) = true
        /\ forall cart, i ∈ items cart -> is_rejected (Cart_new cart) = true)
  /\ (forall u,
        (lifetimeSpend u < 0)%Q \/ ordersPlaced u < 0 ->
        is_rejected (UserInfo_new u) = true).
Proof.
  split; [|split].
  - intros c H. apply finish_rejected. unfold Coupon_errors.
    destruct H as [H|[H|H]].
    + apply Z.leb_le in H. unfold validate_date_range. rewrite H.
      intros Hnil. do 3 (apply app_eq_nil in Hnil as [_ Hnil]).
      discriminate Hnil.
    + apply flt_false in H. rewrite H.
      intros Hnil. apply app_eq_nil in Hnil as [_ Hnil].
      discriminate Hnil.
    + apply Z.leb_gt in H. rewrite H.
      intros Hnil. do 4 (apply app_eq_nil in Hnil as [_ Hnil]).
      discriminate Hnil.
  - intros i H.
    assert (Hi : CartItem_errors i <> []).
    { unfold CartItem_errors. destruct H as [H|H].
      - apply fle_false in H. by rewrite H.
      - assert ((1 <=? quantity i) = false) as -> by (apply Z.leb_gt; lia).
        intros Hnil. by apply app_eq_nil in Hnil as [_ ?]. }
    split; [by apply finish_rejected|].
    intros cart Hin. apply finish_rejected. intros Hnil.
    apply Hi. clear -Hin Hnil.
    induction (items cart) as [|j l IH]; [by apply elem_of_nil in Hin|].
    simpl in Hnil. apply app_eq_nil in Hnil as [Hj Hl].
    apply elem_of_cons in Hin as [->|Hin]; [done|by apply IH].
  - intros u H. apply finish_rejected. unfold UserInfo_errors.
    destruct H as [H|H].
    + apply fle_false in H. by rewrite H.
    + assert ((0 <=? ordersPlaced u) = false) as -> by (apply Z.leb_gt; lia).
      intros Hnil. by apply app_eq_nil in Hnil as [_ ?].
Qed.

Lemma construction_rejects_invalid_witness :
  is_rejected (Coupon_new (Demo.coupon "X" FLAT 5 None 100 100 1)) = true
  /\ is_rejected (CartItem_new (Demo.line "books" 10 0)) = true
  /\ is_rejected (UserInfo_new {| userId := "u2"; userTier := None;
                                  country := None; lifetimeSpend := 0;
                                  ordersPlaced := -1 |}) = true.
Proof.
  pose proof construction_rejects_invalid as (Hc & Hi & Hu).
  split; [|split].
  - apply Hc. left. vm_compute. discriminate.
  - apply Hi. right. vm_compute. discriminate.
  - apply Hu. right. reflexivity.
Defined.

(* ================================================================== *)
(** ** Empty set-valued eligibility fields *)
(* ================================================================== *)

(** C9: an empty list in [allowedUserTiers], [allowedCountries],
    [applicableCategories] or [excludedCategories] constrains nothing: the
    eligibility check answers as it does with that field absent. In
    particular a coupon whose only rule is an empty list of allowed tiers
    is open to every user and cart. *)
Theorem empty_list_is_no_constraint coupon user cart :
  let e := eligibility coupon in
  let check e' := check_eligibility (with_eligibility coupon e') user cart in
  check (with_allowedUserTiers e (Some [])) = check (with_allowedUserTiers e None)
  /\ check (with_allowedCountries e (Some []))
     = check (with_allowedCountries e None)
  /\ check (with_applicableCategories e (Some []))
     = check (with_applicableCategories e None)
  /\ check (with_excludedCategories e (Some []))
     = check (with_excludedCategories e None)
  /\ check (with_allowedUserTiers Eligibility_default (Some [])) = true.
Proof.
  repeat split.
Qed.

(* ================================================================== *)
(** ** The usage projection *)
(* ================================================================== *)

(** C10: when the projection is requested and a coupon is returned, the
    projected usage is the user's current count for the returned code plus
    one, the reported limit is that of the returned coupon, and the
    projection does not exceed the limit. *)
Theorem projected_usage_within_limit w user cart sel :
  keyed_by_code (COUPONS w) ->
  best_coupon w user cart true = Some sel ->
  exists projected limit,
    projectedUsageForUser sel = Some projected
    /\ sel_usageLimitPerUser sel = Some limit
    /\ projected
       = user_usage_for_coupon w (code (sel_coupon sel)) (userId user) + 1
    /\ limit = usageLimitPerUser (sel_coupon sel)
    /\ projected <= limit.
Proof.
  intros Hkeyed Hsel.
  apply best_coupon_Some in Hsel as (e & He & Hsurv & Hc & _ & Hp & Hl & _).
  unfold keyed_by_code in Hkeyed. rewrite Forall_forall in Hkeyed.
  specialize (Hkeyed e He). simpl in Hkeyed.
  unfold survives in Hsurv.
  apply andb_true_iff in Hsurv as [Hsurv _].
  apply andb_true_iff in Hsurv as [Hsurv _].
  apply andb_true_iff in Hsurv as [_ Hlimit].
  apply negb_true_iff, Z.leb_gt in Hlimit.
  rewrite Hkeyed in Hlimit. rewrite Hc.
  eexists _, _. split; [exact Hp|]. split; [exact Hl|].
  split; [done|]. split; [done|]. lia.
Qed.

Lemma projected_usage_within_limit_witness :
  exists projected limit,
    Some 2 = Some projected
    /\ Some 2 = Some limit
    /\ projected = user_usage_for_coupon
                     (Demo.world 50 [Demo.coupon_A; Demo.coupon_B])
                     (code Demo.coupon_B) (userId Demo.shopper) + 1
    /\ limit = usageLimitPerUser Demo.coupon_B
    /\ projected <= limit.
Proof.
  apply (projected_usage_within_limit
           (Demo.world 50 [Demo.coupon_A; Demo.coupon_B])
           Demo.shopper Demo.cart_200
           {| sel_coupon := Demo.coupon_B; computedDiscount := 18.00;
              projectedUsageForUser := Some 2;
              sel_usageLimitPerUser := Some 2 |}).
  - apply store_keyed.
  - vm_compute. reflexivity.
Defined.

(* ================================================================== *)
(** ** Creating and listing coupons *)
(* ================================================================== *)

Lemma coupons_get_None coupons k :
  (coupons_get coupons k = None) <-> (k ∉ map fst coupons).
Proof.
  induction coupons as [|[k' c] l IH]; simpl.
  - split; [intros _; apply not_elem_of_nil|done].
  - rewrite not_elem_of_cons. case_decide as Hk; split.
    + done.
    + intros [Hne _]. by subst.
    + intros H. split; [congruence|by apply IH].
    + intros [_ H]. by apply IH.
Qed.

Lemma coupons_get_elem coupons k c :
  coupons_get coupons k = Some c -> (k, c) ∈ coupons.
Proof.
  induction coupons as [|[k' c'] l IH]; simpl; [done|].
  case_decide as Hk.
  - intros [= ->]. subst. by left.
  - intros H. right. by apply IH.
Qed.

Lemma coupons_get_app coupons more k :
  coupons_get (coupons ++ more) k =
  match coupons_get coupons k with
  | Some c => Some c
  | None => coupons_get more k
  end.
Proof.
  induction coupons as [|[k' c'] l IH]; simpl; [done|].
  by case_decide.
Qed.

(** With distinct keys, every entry is found under its key. *)
Lemma coupons_get_unique coupons k c :
  NoDup (map fst coupons) -> (k, c) ∈ coupons -> coupons_get coupons k = Some c.
Proof.
  induction coupons as [|[k' c'] l IH]; simpl.
  - by intros _ ?%elem_of_nil.
  - intros [Hnotin Hnd]%NoDup_cons [[= -> ->]|Hin]%elem_of_cons.
    + by rewrite decide_True.
    + rewrite decide_False; [by apply IH|].
      intros ->. apply Hnotin. apply list_elem_of_fmap. by exists (k, c).
Qed.

Lemma create_coupon_Some w coupon w' :
  create_coupon w coupon = Some w' ->
  (code coupon ∉ map fst (COUPONS w))
  /\ clock w' = clock w
  /\ COUPONS w' = COUPONS w ++ [(code coupon, coupon)].
Proof.
  unfold create_coupon. case_bool_decide as Hnew; [done|].
  by intros [= <-].
Qed.

(** X1: a coupon that [create_coupon] accepts is afterwards found under its
    code, the coupons under the other codes stay as they were, and the
    listing shows the old coupons in their order followed by the new one. *)
Theorem create_coupon_then_lookup w coupon w' :
  create_coupon w coupon = Some w' ->
  coupons_get (COUPONS w') (code coupon) = Some coupon
  /\ (forall k, k <> code coupon ->
                coupons_get (COUPONS w') k = coupons_get (COUPONS w) k)
  /\ list_coupons w' = list_coupons w ++ [coupon].
Proof.
  intros (Hnew & _ & Hc)%create_coupon_Some.
  unfold list_coupons. rewrite Hc. split; [|split].
  - rewrite coupons_get_app.
    apply coupons_get_None in Hnew. rewrite Hnew. simpl.
    by rewrite decide_True.
  - intros k Hk. rewrite coupons_get_app.
    destruct (coupons_get (COUPONS w) k); [done|]. simpl.
    by rewrite decide_False.
  - by rewrite map_app.
Qed.

(** The store only grows: what is stored stays, in its place. *)
Lemma later_coupons w w2 :
  later w w2 -> exists more, COUPONS w2 = COUPONS w ++ more.
Proof.
  induction 1 as [|w1 t _ IH|w1 c w2 _ IH _ Hcreate|w1 k body w2 r _ IH Huse].
  - exists []. by rewrite app_nil_r.
  - done.
  - destruct IH as (more & Hm).
    apply create_coupon_Some in Hcreate as (_ & _ & Hc).
    exists (more ++ [(code c, c)]). by rewrite Hc, Hm, app_assoc.
  - destruct IH as (more & Hm). exists more. rewrite <- Hm.
    unfold use_coupon in Huse.
    destruct (coupons_get (COUPONS w1) k); [|done].
    destruct (_ <=? _); [done|]. by injection Huse as <- _.
Qed.

Lemma later_coupons_get w w2 k c :
  later w w2 ->
  coupons_get (COUPONS w) k = Some c -> coupons_get (COUPONS w2) k = Some c.
Proof.
  intros (more & ->)%later_coupons Hget.
  by rewrite coupons_get_app, Hget.
Qed.


Lemma create_coupon_usage w coupon w' k uid :
  create_coupon w coupon = Some w' ->
  user_usage_for_coupon w' k uid = user_usage_for_coupon w k uid.
Proof.
  unfold create_coupon. case_bool_decide as Hnew; [done|].
  intros [= <-]. unfold user_usage_for_coupon. simpl.
  destruct (USAGE w !! code coupon) eqn:Hu; [done|].
  destruct (decide (k = code coupon)) as [->|Hk].
  - by rewrite lookup_insert_eq, Hu.
  - by rewrite lookup_insert_ne.
Qed.

(** X3: [create_coupon] changes no usage count, so what [best_coupon]
    finds for the coupons that were already stored is not disturbed. *)
Theorem create_coupon_keeps_usage w coupon w' :
  create_coupon w coupon = Some w' ->
  forall k uid, user_usage_for_coupon w' k uid = user_usage_for_coupon w k uid.
Proof. intros H k uid. by eapply create_coupon_usage. Qed.

Lemma create_coupon_then_lookup_witness :
  coupons_get (COUPONS Sample.with_A) (code Demo.coupon_A) = Some Demo.coupon_A
  /\ (forall k, k <> code Demo.coupon_A ->
                coupons_get (COUPONS Sample.with_A) k
                = coupons_get (COUPONS Sample.start) k)
  /\ list_coupons Sample.with_A = list_coupons Sample.start ++ [Demo.coupon_A].
Proof.
  apply (create_coupon_then_lookup Sample.start Demo.coupon_A Sample.with_A).
  vm_compute. reflexivity.
Defined.



Lemma create_coupon_keeps_usage_witness :
  create_coupon Sample.with_A Demo.coupon_B = Some Sample.with_AB
  /\ forall k uid,
       user_usage_for_coupon Sample.with_AB k uid
       = user_usage_for_coupon Sample.with_A k uid.
Proof.
  assert (H : create_coupon Sample.with_A Demo.coupon_B = Some Sample.with_AB)
    by (vm_compute; reflexivity).
  split; [exact H|].
  exact (create_coupon_keeps_usage Sample.with_A Demo.coupon_B Sample.with_AB H).
Defined.

(* ================================================================== *)
(** ** Using a coupon *)
(* ================================================================== *)

(** What a successful [use_coupon] did. *)
Lemma use_coupon_inr w k body w' receipt :
  use_coupon w k body = inr (w', receipt) ->
  exists coupon,
    coupons_get (COUPONS w) k = Some coupon
    /\ user_usage_for_coupon w k (userId body) < usageLimitPerUser coupon
    /\ clock w' = clock w
    /\ COUPONS w' = COUPONS w
    /\ USAGE w' =
         <[k := <[userId body := user_usage_for_coupon w k (userId body) + 1]>
                  (default ∅ (USAGE w !! k))]> (USAGE w)
    /\ receipt = {| receipt_code := k; receipt_userId := userId body;
                    newUsage := user_usage_for_coupon w k (userId body) + 1;
                    limit := usageLimitPerUser coupon |}.
Proof.
  unfold use_coupon. destruct (coupons_get (COUPONS w) k) as [c|]; [|done].
  destruct (usageLimitPerUser c <=? _) eqn:Hl; [done|].
  intros [= <- <-]. exists c. apply Z.leb_gt in Hl. done.
Qed.

(** The usage counts after a successful [use_coupon]. *)
Lemma use_coupon_usage w k body w' receipt k' uid :
  use_coupon w k body = inr (w', receipt) ->
  user_usage_for_coupon w' k' uid =
  if decide (k' = k /\ uid = userId body)
  then user_usage_for_coupon w k (userId body) + 1
  else user_usage_for_coupon w k' uid.
Proof.
  intros (c & _ & _ & _ & _ & Hu & _)%use_coupon_inr.
  unfold user_usage_for_coupon at 1. rewrite Hu.
  destruct (decide (k' = k)) as [->|Hk].
  - rewrite lookup_insert_eq. simpl.
    destruct (decide (uid = userId body)) as [->|Huid].
    + rewrite lookup_insert_eq. simpl. by rewrite decide_True.
    + rewrite lookup_insert_ne by done.
      rewrite decide_False by tauto. done.
  - rewrite lookup_insert_ne by done.
    rewrite decide_False by tauto. done.
Qed.

(** X4: a successful [use_coupon] raises the count of that coupon for that
    user by one and reports the new count and the coupon's limit; the new
    count does not exceed the limit, every other count is unchanged, and so
    are the stored coupons. *)
Theorem use_coupon_counts_one_use w k body w' receipt :
  use_coupon w k body = inr (w', receipt) ->
  user_usage_for_coupon w' k (userId body)
    = user_usage_for_coupon w k (userId body) + 1
  /\ newUsage receipt = user_usage_for_coupon w' k (userId body)
  /\ coupons_get (COUPONS w) k <> None
  /\ Some (limit receipt) = usageLimitPerUser <$> coupons_get (COUPONS w) k
  /\ newUsage receipt <= limit receipt
  /\ (forall k' uid,
        (k', uid) <> (k, userId body) ->
        user_usage_for_coupon w' k' uid = user_usage_for_coupon w k' uid)
  /\ COUPONS w' = COUPONS w.
Proof.
  intros Huse.
  pose proof (use_coupon_usage _ _ _ _ _ k (userId body) Huse) as Hnew.
  rewrite decide_True in Hnew by done.
  pose proof (use_coupon_inr _ _ _ _ _ Huse)
    as (c & Hget & Hlt & _ & Hc & _ & ->).
  simpl. rewrite Hget. simpl.
  split; [done|]. split; [done|]. split; [done|]. split; [done|].
  split; [lia|]. split; [|done].
  intros k' uid Hne. rewrite (use_coupon_usage _ _ _ _ _ k' uid Huse).
  rewrite decide_False; [done|]. intros [-> ->]. by apply Hne.
Qed.

Lemma use_coupon_counts_one_use_witness :
  use_coupon Sample.with_AB "A" Demo.shopper
    = inr (Sample.used_A 1,
           {| receipt_code := "A"; receipt_userId := "u1";
              newUsage := 1; limit := 2 |})
  /\ user_usage_for_coupon (Sample.used_A 1) "A" (userId Demo.shopper)
     = user_usage_for_coupon Sample.with_AB "A" (userId Demo.shopper) + 1.
Proof.
  assert (H : use_coupon Sample.with_AB "A" Demo.shopper
              = inr (Sample.used_A 1,
                     {| receipt_code := "A"; receipt_userId := "u1";
                        newUsage := 1; limit := 2 |}))
    by (vm_compute; reflexivity).
  split; [exact H|].
  exact (proj1 (use_coupon_counts_one_use _ _ _ _ _ H)).
Defined.

(* ================================================================== *)
(** ** What holds in every reachable world *)
(* ================================================================== *)

Lemma Coupon_new_limit c : Coupon_new c = Built c -> 1 <= usageLimitPerUser c.
Proof.
  unfold Coupon_new, finish.
  destruct (Coupon_errors c) eqn:He; [|done]. intros _.
  unfold Coupon_errors in He.
  do 4 (apply app_eq_nil in He as [_ He]).
  apply app_eq_nil in He as [He _].
  unfold constraint in He.
  destruct (1 <=? usageLimitPerUser c) eqn:Hl; [|done].
  by apply Z.leb_le.
Qed.

Lemma reachable_store w :
  reachable w ->
  keyed_by_code (COUPONS w)
  /\ NoDup (map fst (COUPONS w))
  /\ Forall (fun entry => Coupon_new entry.2 = Built entry.2) (COUPONS w).
Proof.
  induction 1 as [t|w t _ IH|w c w' _ IH Hvalid Hcreate
                  |w k body w' r _ IH Huse]; simpl.
  - split; [constructor|]. split; constructor.
  - done.
  - destruct IH as (Hk & Hnd & Hv).
    pose proof (create_coupon_Some _ _ _ Hcreate) as (Hnew & _ & Hc).
    rewrite Hc. split; [|split].
    + apply Forall_app. split; [done|]. by constructor.
    + rewrite map_app. apply NoDup_app. split; [done|]. split.
      * by intros x Hx ->%list_elem_of_singleton.
      * apply NoDup_singleton.
    + apply Forall_app. split; [done|]. by constructor.
  - apply use_coupon_inr in Huse as (_ & _ & _ & _ & Hc & _).
    by rewrite Hc.
Qed.

Lemma reachable_usage w k uid :
  reachable w ->
  match coupons_get (COUPONS w) k with
  | Some c => 0 <= user_usage_for_coupon w k uid <= usageLimitPerUser c
  | None => user_usage_for_coupon w k uid = 0
  end.
Proof.
  intros Hr. revert k uid.
  induction Hr as [t|w t _ IH|w c w' _ IH Hvalid Hcreate
                   |w k0 body w' r _ IH Huse]; intros k uid.
  - simpl. unfold user_usage_for_coupon. simpl. by rewrite lookup_empty.
  - apply IH.
  - rewrite (create_coupon_usage _ _ _ k uid Hcreate).
    pose proof (create_coupon_Some _ _ _ Hcreate) as (Hnew & _ & Hc).
    rewrite Hc, coupons_get_app. specialize (IH k uid).
    destruct (coupons_get (COUPONS w) k) as [c0|] eqn:Hget; [done|].
    simpl. case_decide as Hk; [|done].
    rewrite IH. pose proof (Coupon_new_limit _ Hvalid). lia.
  - rewrite (use_coupon_usage _ _ _ _ _ k uid Huse).
    pose proof (use_coupon_inr _ _ _ _ _ Huse)
      as (c & Hget & Hlt & _ & Hc & _).
    rewrite Hc. case_decide as Hsame.
    + destruct Hsame as [-> ->]. rewrite Hget.
      specialize (IH k0 (userId body)). rewrite Hget in IH. lia.
    + apply IH.
Qed.

(** X5: in every world the service can reach, each coupon is stored under
    its own code, no code is stored twice, and every stored coupon passed
    construction. *)
Theorem reachable_store_well_formed w :
  reachable w ->
  keyed_by_code (COUPONS w)
  /\ distinct_codes (COUPONS w)
  /\ NoDup (map fst (COUPONS w))
  /\ (forall k c, (k, c) ∈ COUPONS w ->
                  coupons_get (COUPONS w) k = Some c
                  /\ Coupon_new c = Built c).
Proof.
  intros (Hk & Hnd & Hv)%reachable_store.
  split; [done|]. split; [|split; [done|]].
  - unfold distinct_codes. by rewrite <- keyed_by_code_fst.
  - intros k c Hin. split; [by apply coupons_get_unique|].
    rewrite Forall_forall in Hv. by apply (Hv (k, c)).
Qed.

(** X6: in every world the service can reach, a user's usage count of a
    stored coupon lies between 0 and the coupon's limit, and the count for
    a code that is not stored is 0. *)
Theorem reachable_usage_within_limit w :
  reachable w ->
  forall k uid,
    0 <= user_usage_for_coupon w k uid
    /\ (forall c, (k, c) ∈ COUPONS w ->
                  user_usage_for_coupon w k uid <= usageLimitPerUser c)
    /\ (k ∉ map fst (COUPONS w) -> user_usage_for_coupon w k uid = 0).
Proof.
  intros Hr k uid.
  pose proof (reachable_usage w k uid Hr) as Hu.
  pose proof (reachable_store w Hr) as (_ & Hnd & _).
  split; [|split].
  - destruct (coupons_get (COUPONS w) k); lia.
  - intros c Hin. rewrite (coupons_get_unique _ _ _ Hnd Hin) in Hu. lia.
  - intros Hnot. apply coupons_get_None in Hnot. by rewrite Hnot in Hu.
Qed.

Lemma sample_with_AB_reachable : reachable Sample.with_AB.
Proof.
  apply (reachable_create Sample.with_A Demo.coupon_B);
    [|vm_compute; reflexivity..].
  apply (reachable_create Sample.start Demo.coupon_A);
    [|vm_compute; reflexivity..].
  apply reachable_start.
Qed.

Lemma sample_used_A_reachable : reachable (Sample.used_A 2).
Proof.
  apply (reachable_use (Sample.used_A 1) "A" Demo.shopper _
           {| receipt_code := "A"; receipt_userId := "u1";
              newUsage := 2; limit := 2 |});
    [|vm_compute; reflexivity].
  apply (reachable_use Sample.with_AB "A" Demo.shopper _
           {| receipt_code := "A"; receipt_userId := "u1";
              newUsage := 1; limit := 2 |});
    [|vm_compute; reflexivity].
  apply sample_with_AB_reachable.
Qed.

Lemma reachable_store_well_formed_witness :
  keyed_by_code (COUPONS (Sample.used_A 2))
  /\ distinct_codes (COUPONS (Sample.used_A 2))
  /\ NoDup (map fst (COUPONS (Sample.used_A 2)))
  /\ (forall k c, (k, c) ∈ COUPONS (Sample.used_A 2) ->
                  coupons_get (COUPONS (Sample.used_A 2)) k = Some c
                  /\ Coupon_new c = Built c).
Proof.
  exact (reachable_store_well_formed _ sample_used_A_reachable).
Defined.

Lemma reachable_usage_within_limit_witness :
  0 <= user_usage_for_coupon (Sample.used_A 2) "A" "u1"
  /\ (forall c, ("A"%string, c) ∈ COUPONS (Sample.used_A 2) ->
                user_usage_for_coupon (Sample.used_A 2) "A" "u1"
                <= usageLimitPerUser c)
  /\ ("A"%string ∉ map fst (COUPONS (Sample.used_A 2)) ->
      user_usage_for_coupon (Sample.used_A 2) "A" "u1" = 0).
Proof.
  exact (reachable_usage_within_limit _ sample_used_A_reachable "A"%string
           "u1"%string).
Defined.

(* ================================================================== *)
(** ** Using a coupon again and again *)
(* ================================================================== *)

Lemma use_coupon_times_spec n : forall w k body c,
  coupons_get (COUPONS w) k = Some c ->
  user_usage_for_coupon w k (userId body) <= usageLimitPerUser c ->
  if decide (user_usage_for_coupon w k (userId body) + Z.of_nat n
             <= usageLimitPerUser c)
  then exists w',
         use_coupon_times n w k body = inr w'
         /\ COUPONS w' = COUPONS w
         /\ user_usage_for_coupon w' k (userId body)
            = user_usage_for_coupon w k (userId body) + Z.of_nat n
  else exists e,
         use_coupon_times n w k body = inl e /\ status_code e = 429.
Proof.
  induction n as [|n IH]; intros w k body c Hget Hle.
  - rewrite decide_True by lia. exists w. simpl.
    split; [done|]. split; [done|]. lia.
  - simpl use_coupon_times.
    destruct (use_coupon w k body) as [e|[w' r]] eqn:Huse.
    + unfold use_coupon in Huse. rewrite Hget in Huse.
      destruct (usageLimitPerUser c <=? _) eqn:Hl; [|done].
      injection Huse as <-. apply Z.leb_le in Hl.
      rewrite decide_False by lia. by eexists.
    + pose proof (use_coupon_usage _ _ _ _ _ k (userId body) Huse) as Hnew.
      rewrite decide_True in Hnew by done.
      pose proof (use_coupon_inr _ _ _ _ _ Huse)
        as (c' & Hget' & Hlt & _ & Hc & _).
      rewrite Hget in Hget'. injection Hget' as <-.
      specialize (IH w' k body c). rewrite Hc, Hnew in IH.
      specialize (IH Hget ltac:(lia)).
      destruct (decide (_ + Z.of_nat (S n) <= _)) as [Hfit|Hfit].
      * rewrite decide_True in IH by lia.
        destruct IH as (w'' & Hrun & Hc'' & Hu''). exists w''.
        split; [done|]. split; [done|]. lia.
      * by rewrite decide_False in IH by lia.
Qed.

(** X7: a stored coupon can be used by a user until the count reaches the
    limit and not once more: [n] uses in a row all succeed and raise the
    count by [n] when the limit leaves room for them, and otherwise the run
    is cut short with status 429. *)
Theorem use_coupon_until_limit w k body c n :
  coupons_get (COUPONS w) k = Some c ->
  user_usage_for_coupon w k (userId body) <= usageLimitPerUser c ->
  (user_usage_for_coupon w k (userId body) + Z.of_nat n <= usageLimitPerUser c ->
   exists w',
     use_coupon_times n w k body = inr w'
     /\ user_usage_for_coupon w' k (userId body)
        = user_usage_for_coupon w k (userId body) + Z.of_nat n)
  /\ (usageLimitPerUser c < user_usage_for_coupon w k (userId body) + Z.of_nat n ->
      exists e, use_coupon_times n w k body = inl e /\ status_code e = 429).
Proof.
  intros Hget Hle.
  pose proof (use_coupon_times_spec n w k body c Hget Hle) as Hspec.
  split; intros Hn.
  - rewrite decide_True in Hspec by done.
    destruct Hspec as (w' & ? & _ & ?). by exists w'.
  - by rewrite decide_False in Hspec by lia.
Qed.

Lemma use_coupon_until_limit_witness :
  (exists w',
     use_coupon_times 2 Sample.with_AB "A" Demo.shopper = inr w'
     /\ user_usage_for_coupon w' "A" (userId Demo.shopper)
        = user_usage_for_coupon Sample.with_AB "A" (userId Demo.shopper)
          + Z.of_nat 2)
  /\ (exists e,
        use_coupon_times 3 Sample.with_AB "A" Demo.shopper = inl e
        /\ status_code e = 429).
Proof.
  split.
  - apply (proj1 (use_coupon_until_limit Sample.with_AB "A" Demo.shopper
                    Demo.coupon_A 2 eq_refl ltac:(vm_compute; discriminate))).
    vm_compute. discriminate.
  - apply (proj2 (use_coupon_until_limit Sample.with_AB "A" Demo.shopper
                    Demo.coupon_A 3 eq_refl ltac:(vm_compute; discriminate))).
    vm_compute. reflexivity.
Defined.

(* ================================================================== *)
(** ** Selecting and using together *)
(* ================================================================== *)

(** The checks of the loop body read the usage counts of the one user. *)
Lemma survives_agree_user w1 w2 t user cart entry :
  (forall k, user_usage_for_coupon w1 k (userId user)
             = user_usage_for_coupon w2 k (userId user)) ->
  survives w1 t user cart entry = survives w2 t user cart entry.
Proof. intros Hu. unfold survives. by rewrite Hu. Qed.

Lemma best_coupon_agree_user w1 w2 user cart flag :
  now_utc w1 = now_utc w2 ->
  COUPONS w1 = COUPONS w2 ->
  (forall k, user_usage_for_coupon w1 k (userId user)
             = user_usage_for_coupon w2 k (userId user)) ->
  best_coupon w1 user cart flag = best_coupon w2 user cart flag.
Proof.
  intros Ht Hc Hu. rewrite !best_coupon_sorted.
  rewrite !collect_candidates_filter, Ht, Hc.
  assert (Hf : filter (fun e => survives w1 (now_utc w2) user cart e) (COUPONS w2)
               = filter (fun e => survives w2 (now_utc w2) user cart e) (COUPONS w2)).
  { apply list_filter_iff. intros e.
    by rewrite (survives_agree_user w1 w2). }
  rewrite Hf. destruct (Py.sort _ _ _) as [|top rest]; [done|].
  simpl. unfold selection_for. by rewrite Hu.
Qed.

(** X8: in a reachable world, the coupon [best_coupon] returns can be
    used by that user: [use_coupon] on its code succeeds, and the new count
    and the limit on the receipt are the projection [best_coupon] reports
    when asked for it. *)
Theorem best_coupon_can_be_used w user cart flag sel :
  reachable w ->
  best_coupon w user cart flag = Some sel ->
  exists w' receipt,
    use_coupon w (code (sel_coupon sel)) user = inr (w', receipt)
    /\ (flag = true ->
        projectedUsageForUser sel = Some (newUsage receipt)
        /\ sel_usageLimitPerUser sel = Some (limit receipt)).
Proof.
  intros Hr Hsel.
  pose proof (reachable_store w Hr) as (Hkeyed & Hnd & _).
  apply best_coupon_Some in Hsel
    as (e & He & Hsurv & Hc & _ & Hp & Hl & _).
  unfold keyed_by_code in Hkeyed. rewrite Forall_forall in Hkeyed.
  specialize (Hkeyed e He). simpl in Hkeyed.
  assert (Hget : coupons_get (COUPONS w) (code e.2) = Some e.2).
  { apply coupons_get_unique; [done|]. rewrite <- Hkeyed. by destruct e. }
  unfold survives in Hsurv.
  apply andb_true_iff in Hsurv as [Hsurv _].
  apply andb_true_iff in Hsurv as [Hsurv _].
  apply andb_true_iff in Hsurv as [_ Hlimit].
  apply negb_true_iff in Hlimit. rewrite Hkeyed in Hlimit.
  rewrite Hc. unfold use_coupon. rewrite Hget, Hlimit.
  eexists _, _. split; [done|]. intros ->. simpl. done.
Qed.

Lemma best_coupon_can_be_used_witness :
  exists w' receipt,
    use_coupon Sample.with_AB (code Demo.coupon_B) Demo.shopper
      = inr (w', receipt)
    /\ (true = true ->
        Some 1 = Some (newUsage receipt) /\ Some 2 = Some (limit receipt)).
Proof.
  exact (best_coupon_can_be_used Sample.with_AB Demo.shopper Demo.cart_200 true
           {| sel_coupon := Demo.coupon_B; computedDiscount := 18.00;
              projectedUsageForUser := Some 1;
              sel_usageLimitPerUser := Some 2 |}
           sample_with_AB_reachable eq_refl).
Defined.

(** X9: a use of a coupon by one user changes nothing in what
    [best_coupon] returns to another user. *)
Theorem use_coupon_leaves_other_users w k body w' receipt user cart flag :
  use_coupon w k body = inr (w', receipt) ->
  userId user <> userId body ->
  best_coupon w' user cart flag = best_coupon w user cart flag.
Proof.
  intros Huse Hother.
  pose proof (use_coupon_inr _ _ _ _ _ Huse) as (_ & _ & _ & Ht & Hc & _).
  apply best_coupon_agree_user; [done|done|].
  intros k'. rewrite (use_coupon_usage _ _ _ _ _ k' (userId user) Huse).
  rewrite decide_False; [done|]. by intros [_ ?].
Qed.

Lemma use_coupon_leaves_other_users_witness :
  best_coupon (Sample.used_A 1) Sample.visitor Demo.cart_200 true
  = best_coupon Sample.with_AB Sample.visitor Demo.cart_200 true.
Proof.
  apply (use_coupon_leaves_other_users Sample.with_AB "A" Demo.shopper
           (Sample.used_A 1)
           {| receipt_code := "A"; receipt_userId := "u1";
              newUsage := 1; limit := 2 |}).
  - vm_compute. reflexivity.
  - simpl. discriminate.
Defined.

Lemma later_reachable w w2 : reachable w -> later w w2 -> reachable w2.
Proof.
  intros Hr. induction 1 as [|w1 t _ IH|w1 c w2 _ IH Hv Hc|w1 k body w2 r _ IH Hu].
  - done.
  - by apply reachable_tick.
  - by eapply reachable_create.
  - by eapply reachable_use.
Qed.

(** Usage counts never go down. *)
Lemma later_usage w w2 k uid :
  later w w2 -> user_usage_for_coupon w k uid <= user_usage_for_coupon w2 k uid.
Proof.
  induction 1 as [|w1 t _ IH|w1 c w2 _ IH _ Hc|w1 k0 body w2 r _ IH Hu].
  - lia.
  - done.
  - by rewrite (create_coupon_usage _ _ _ k uid Hc).
  - rewrite (use_coupon_usage _ _ _ _ _ k uid Hu).
    case_decide as Hsame; [|done]. destruct Hsame as [-> ->]. lia.
Qed.

(** X10: in a reachable world, once a use has brought a user's count to
    the limit, [best_coupon] never again returns the coupon under that code
    to a user with that userId, in any later world and for any cart. *)
Theorem used_up_coupon_not_offered w k body w' receipt :
  reachable w ->
  use_coupon w k body = inr (w', receipt) ->
  newUsage receipt = limit receipt ->
  forall w2 user cart flag sel,
    later w' w2 ->
    userId user = userId body ->
    best_coupon w2 user cart flag = Some sel ->
    code (sel_coupon sel) <> k.
Proof.
  intros Hr Huse Hfull w2 user cart flag sel Hlater Huid Hsel Hk.
  assert (Hr2 : reachable w2).
  { apply (later_reachable w'); [|done]. by eapply reachable_use. }
  pose proof (reachable_store w2 Hr2) as (Hkeyed & Hnd & _).
  pose proof (use_coupon_usage _ _ _ _ _ k (userId body) Huse) as Hnew.
  rewrite decide_True in Hnew by done.
  pose proof (use_coupon_inr _ _ _ _ _ Huse)
    as (c & Hget & _ & _ & Hc & _ & ->).
  simpl in Hfull. rewrite <- Hc in Hget.
  pose proof (later_coupons_get _ _ _ _ Hlater Hget) as Hget2.
  pose proof (later_usage _ _ k (userId body) Hlater) as Hmono.
  apply best_coupon_Some in Hsel as (e & He & Hsurv & Hsc & _).
  unfold keyed_by_code in Hkeyed. rewrite Forall_forall in Hkeyed.
  specialize (Hkeyed e He). simpl in Hkeyed.
  rewrite Hsc, <- Hkeyed in Hk.
  assert (Hsame : Some e.2 = Some c).
  { rewrite <- Hget2. symmetry. apply coupons_get_unique; [done|].
    rewrite <- Hk. by destruct e. }
  injection Hsame as Hsame.
  unfold survives in Hsurv.
  apply andb_true_iff in Hsurv as [Hsurv _].
  apply andb_true_iff in Hsurv as [Hsurv _].
  apply andb_true_iff in Hsurv as [_ Hlimit].
  apply negb_true_iff, Z.leb_gt in Hlimit.
  rewrite Hk, Huid, Hsame in Hlimit. lia.
Qed.

(** The shopper uses [coupon_A] up; later [coupon_C] is stored and another
    user uses [coupon_A]; the shopper is then offered [coupon_B]. *)
Lemma used_up_coupon_not_offered_witness :
  best_coupon Sample.later_on Demo.shopper Demo.cart_small false
    = Some {| sel_coupon := Demo.coupon_B; computedDiscount := 0.40;
              projectedUsageForUser := None; sel_usageLimitPerUser := None |}
  /\ code Demo.coupon_B <> "A"%string.
Proof.
  assert (Hsel : best_coupon Sample.later_on Demo.shopper Demo.cart_small false
                 = Some {| sel_coupon := Demo.coupon_B;
                           computedDiscount := 0.40;
                           projectedUsageForUser := None;
                           sel_usageLimitPerUser := None |})
    by (vm_compute; reflexivity).
  split; [exact Hsel|].
  assert (Hr : reachable (Sample.used_A 1)).
  { apply (reachable_use Sample.with_AB "A" Demo.shopper _
             {| receipt_code := "A"; receipt_userId := "u1";
                newUsage := 1; limit := 2 |});
      [apply sample_with_AB_reachable|vm_compute; reflexivity]. }
  assert (Hlater : later (Sample.used_A 2) Sample.later_on).
  { apply (later_use _ Sample.with_ABC "A" Sample.visitor _
             {| receipt_code := "A"; receipt_userId := "u2";
                newUsage := 1; limit := 2 |});
      [|vm_compute; reflexivity].
    apply (later_create _ (Sample.used_A 2) Demo.coupon_C);
      [|vm_compute; reflexivity..].
    apply later_now. }
  refine (used_up_coupon_not_offered (Sample.used_A 1) "A" Demo.shopper
            (Sample.used_A 2)
            {| receipt_code := "A"; receipt_userId := "u1";
               newUsage := 2; limit := 2 |}
            Hr _ eq_refl Sample.later_on Demo.shopper Demo.cart_small false _
            Hlater eq_refl Hsel).
  vm_compute. reflexivity.
Defined.

(* ================================================================== *)
(** ** What [best_coupon] returns, without assumptions on the store *)
(* ================================================================== *)

Lemma survives_true w t user cart k c :
  survives w t user cart (k, c) = true <->
  is_within_validity w c (Some t) = true
  /\ user_usage_for_coupon w k (userId user) < usageLimitPerUser c
  /\ check_eligibility c user cart = true
  /\ (0 < calculate_discount c cart)%Q.
Proof.
  unfold survives. simpl.
  rewrite !andb_true_iff, !negb_true_iff, Z.leb_gt, fle_false. tauto.
Qed.

Lemma passes_with_false eligible discount_of w t user cart k c :
  passes_with eligible discount_of w t user cart (k, c) = false <->
  is_within_validity w c (Some t) = false
  \/ usageLimitPerUser c <= user_usage_for_coupon w k (userId user)
  \/ eligible c user cart = false
  \/ (discount_of c cart <= 0)%Q.
Proof.
  unfold passes_with. simpl.
  rewrite !andb_false_iff, !negb_false_iff, Z.leb_le, fle_true. tauto.
Qed.

(** Not being undercut in the key order means not having the smaller
    rounded discount. *)
Lemma key_lt_false_discount x y :
  key_lt (sort_key x) (sort_key y) = false ->
  (cand_discount x <= cand_discount y)%Q.
Proof.
  unfold key_lt, sort_key.
  destruct (Py.feq _ _) eqn:Heq; simpl.
  - intros _. apply feq_true in Heq. lra.
  - intros Hlt%flt_false. lra.
Qed.

(** X11: when the selector answers that there is no coupon, every stored
    coupon failed one of the four checks of the loop; when it returns a
    coupon, that coupon is stored and passed all four, the reported
    discount is its own rounded discount, and no stored coupon that passed
    the four checks has a larger rounded discount. This needs no assumption
    on the store and holds whatever the eligibility check, the discount
    calculation and the rounding compute; [best_coupon] is the case of
    [check_eligibility], [calculate_discount] and [round(_, 2)]. *)
Theorem best_coupon_result eligible discount_of rounded w user cart flag :
  (best_coupon_with eligible discount_of rounded w user cart flag = None ->
   forall k c, (k, c) ∈ COUPONS w ->
     is_within_validity w c (Some (now_utc w)) = false
     \/ usageLimitPerUser c <= user_usage_for_coupon w k (userId user)
     \/ eligible c user cart = false
     \/ (discount_of c cart <= 0)%Q)
  /\ forall sel,
       best_coupon_with eligible discount_of rounded w user cart flag
         = Some sel ->
       (exists k,
          (k, sel_coupon sel) ∈ COUPONS w
          /\ is_within_validity w (sel_coupon sel) (Some (now_utc w)) = true
          /\ user_usage_for_coupon w k (userId user)
             < usageLimitPerUser (sel_coupon sel)
          /\ eligible (sel_coupon sel) user cart = true
          /\ (0 < discount_of (sel_coupon sel) cart)%Q)
       /\ computedDiscount sel = rounded (discount_of (sel_coupon sel) cart)
       /\ forall k c,
            (k, c) ∈ COUPONS w ->
            is_within_validity w c (Some (now_utc w)) = true ->
            user_usage_for_coupon w k (userId user) < usageLimitPerUser c ->
            eligible c user cart = true ->
            (0 < discount_of c cart)%Q ->
            (rounded (discount_of c cart) <= computedDiscount sel)%Q.
Proof.
  split.
  - rewrite best_coupon_with_None, collect_candidates_with_filter.
    intros Hnil%fmap_nil_inv k c Hin. apply passes_with_false.
    destruct (passes_with eligible discount_of w (now_utc w) user cart (k, c))
      eqn:Hs; [|done].
    assert (Hf : (k, c) ∈ filter
                   (fun e => passes_with eligible discount_of w (now_utc w)
                               user cart e) (COUPONS w))
      by (apply list_elem_of_filter; split; [by rewrite Hs|done]).
    rewrite Hnil in Hf. by apply elem_of_nil in Hf.
  - intros sel Hsel.
    apply best_coupon_with_Some in Hsel
      as ([k0 c0] & Hin & Hs & Hc & Hd & _ & _ & Hleast).
    simpl in Hc, Hd. rewrite Hc, Hd.
    pose proof (proj1 (passes_with_true _ _ _ _ _ _ _) Hs)
      as (Hv & Hu & He & Hpos).
    split; [by exists k0|]. split; [done|].
    intros k c Hin' Hv' Hu' He' Hpos'.
    apply (key_lt_false_discount
             (candidate_with discount_of rounded cart (k, c))
             (candidate_with discount_of rounded cart (k0, c0))).
    apply Hleast; [done|]. by apply passes_with_true.
Qed.

Lemma best_coupon_result_witness :
  (forall k c,
     (k, c) ∈ COUPONS (Demo.world 200 [Demo.coupon_A]) ->
     is_within_validity (Demo.world 200 [Demo.coupon_A]) c
       (Some (now_utc (Demo.world 200 [Demo.coupon_A]))) = false
     \/ usageLimitPerUser c
        <= user_usage_for_coupon (Demo.world 200 [Demo.coupon_A]) k
             (userId Demo.shopper)
     \/ check_eligibility c Demo.shopper Demo.cart_200 = false
     \/ (calculate_discount c Demo.cart_200 <= 0)%Q)
  /\ 18.00%Q = Py.round (calculate_discount Demo.coupon_B Demo.cart_200) 2.
Proof.
  split.
  - apply (proj1 (best_coupon_result check_eligibility calculate_discount
                    (fun disc => Py.round disc 2)
                    (Demo.world 200 [Demo.coupon_A])
                    Demo.shopper Demo.cart_200 false)).
    vm_compute. reflexivity.
  - apply (proj2 (best_coupon_result check_eligibility calculate_discount
                    (fun disc => Py.round disc 2) Sample.with_AB Demo.shopper
                    Demo.cart_200 false)
             {| sel_coupon := Demo.coupon_B; computedDiscount := 18.00;
                projectedUsageForUser := None;
                sel_usageLimitPerUser := None |}).
    vm_compute. reflexivity.
Defined.

(** X13: for a cart that is worth nothing, and so for the empty cart,
    [best_coupon] never returns a coupon, whatever is stored. *)
Theorem worthless_cart_gets_no_coupon w user flag :
  (forall sel, best_coupon w user {| items := [] |} flag <> Some sel)
  /\ forall cart,
       (total_value cart <= 0)%Q ->
       forall sel, best_coupon w user cart flag <> Some sel.
Proof.
  assert (Hgen : forall cart,
            (total_value cart <= 0)%Q ->
            forall sel, best_coupon w user cart flag <> Some sel).
  { intros cart Hzero sel Hsel.
    apply best_coupon_Some in Hsel as ([k c] & _ & Hs & _).
    apply survives_true in Hs as (_ & _ & _ & Hpos).
    unfold calculate_discount in Hpos.
    rewrite py_max_Qmax, py_min_Qmin in Hpos.
    apply Q.max_lt_iff in Hpos as [Hpos|Hpos]; [lra|].
    apply Q.min_glb_lt_iff in Hpos as [_ Hpos]. lra. }
  split; [|done]. apply Hgen. done.
Qed.

Lemma worthless_cart_gets_no_coupon_witness :
  (total_value {| items := [Demo.line "gift" 0 3] |} <= 0)%Q
  /\ forall sel,
       best_coupon Sample.with_AB Demo.shopper
         {| items := [Demo.line "gift" 0 3] |} true <> Some sel.
Proof.
  assert (H : (total_value {| items := [Demo.line "gift" 0 3] |} <= 0)%Q)
    by (vm_compute; discriminate).
  split; [exact H|].
  exact (proj2 (worthless_cart_gets_no_coupon Sample.with_AB Demo.shopper true)
           {| items := [Demo.line "gift" 0 3] |} H).
Defined.

(** The checks of the loop body give the same answers before and after a
    [create_coupon]. *)
Lemma create_coupon_passes eligible discount_of w coupon w' user cart entry :
  create_coupon w coupon = Some w' ->
  passes_with eligible discount_of w' (now_utc w') user cart entry
  = passes_with eligible discount_of w (now_utc w) user cart entry.
Proof.
  intros Hcreate.
  pose proof (create_coupon_Some _ _ _ Hcreate) as (_ & Ht & _).
  unfold passes_with, now_utc. rewrite Ht.
  by rewrite (create_coupon_usage _ _ _ entry.1 (userId user) Hcreate).
Qed.

(** X14: storing one more coupon does not lower the discount. With the
    clock reading unchanged (as [create_coupon] leaves it): if the selector
    returned a coupon before a successful [create_coupon], then afterwards
    it does not answer that there is no coupon, and a coupon it returns has
    a discount at least as high. This holds whatever the eligibility check,
    the discount calculation and the rounding compute. *)
Theorem create_coupon_never_lowers_discount
    eligible discount_of rounded w coupon w' user cart flag sel :
  create_coupon w coupon = Some w' ->
  best_coupon_with eligible discount_of rounded w user cart flag = Some sel ->
  clock w' = clock w
  /\ best_coupon_with eligible discount_of rounded w' user cart flag <> None
  /\ forall sel',
       best_coupon_with eligible discount_of rounded w' user cart flag
         = Some sel' ->
       (computedDiscount sel <= computedDiscount sel')%Q.
Proof.
  intros Hcreate Hsel.
  pose proof (create_coupon_Some _ _ _ Hcreate) as (_ & Ht & Hc).
  apply best_coupon_with_Some in Hsel as (e & He & Hs & _ & Hd & _).
  assert (He' : e ∈ COUPONS w') by (rewrite Hc; apply elem_of_app; by left).
  assert (Hs' : passes_with eligible discount_of w' (now_utc w') user cart e
                = true)
    by (by rewrite (create_coupon_passes _ _ _ _ _ _ _ _ Hcreate)).
  split; [done|]. split.
  - intros Hnone. apply best_coupon_with_None in Hnone.
    assert (Hin : candidate_with discount_of rounded cart e
                  ∈ collect_candidates_with eligible discount_of rounded w'
                      (now_utc w') user cart)
      by (apply elem_of_collect_candidates_with; by exists e).
    rewrite Hnone in Hin. by apply elem_of_nil in Hin.
  - intros sel' Hsel'.
    apply best_coupon_with_Some in Hsel'
      as (e' & _ & _ & _ & Hd' & _ & _ & Hleast).
    rewrite Hd, Hd'.
    apply (key_lt_false_discount (candidate_with discount_of rounded cart e)
             (candidate_with discount_of rounded cart e')).
    by apply Hleast.
Qed.

Lemma create_coupon_never_lowers_discount_witness :
  clock Sample.with_AB = clock Sample.with_A
  /\ best_coupon Sample.with_AB Demo.shopper Demo.cart_200 false <> None
  /\ forall sel',
       best_coupon Sample.with_AB Demo.shopper Demo.cart_200 false = Some sel' ->
       (15.00 <= computedDiscount sel')%Q.
Proof.
  apply (create_coupon_never_lowers_discount check_eligibility
           calculate_discount (fun disc => Py.round disc 2)
           Sample.with_A Demo.coupon_B Sample.with_AB Demo.shopper
           Demo.cart_200 false
           {| sel_coupon := Demo.coupon_A; computedDiscount := 15.00;
              projectedUsageForUser := None;
              sel_usageLimitPerUser := None |});
    vm_compute; reflexivity.
Defined.

(* ================================================================== *)
(** ** The eligibility rules, one by one *)
(* ================================================================== *)

Lemma in_set_true x ys : Py.in_set x ys = true <-> x ∈ ys.
Proof. unfold Py.in_set. apply bool_decide_eq_true. Qed.

Lemma in_set_upper x l :
  Py.in_set x (map Py.upper l) = true <-> exists t, t ∈ l /\ Py.upper t = x.
Proof.
  rewrite in_set_true, list_elem_of_fmap. split.
  - intros (t & -> & Ht). by exists t.
  - intros (t & Ht & <-). by exists t.
Qed.

Lemma isdisjoint_true xs ys :
  Py.isdisjoint xs ys = true <-> forall x, x ∈ xs -> x ∉ ys.
Proof.
  unfold Py.isdisjoint. induction xs as [|x xs IH]; simpl.
  - split; [by intros _ x ?%elem_of_nil|done].
  - rewrite andb_true_iff, negb_true_iff, IH. split.
    + intros [Hx Hxs] z [->|Hz]%elem_of_cons; [|by apply Hxs].
      intros Hin%in_set_true. congruence.
    + intros Hall. split.
      * destruct (Py.in_set x ys) eqn:Hin; [|done].
        apply in_set_true in Hin. exfalso. eapply Hall; [by left|done].
      * intros z Hz. apply Hall. by right.
Qed.

Lemma isdisjoint_false xs ys :
  Py.isdisjoint xs ys = false -> exists x, x ∈ xs /\ x ∈ ys.
Proof.
  unfold Py.isdisjoint. induction xs as [|x xs IH]; simpl; [done|].
  intros [Hx|Hxs]%andb_false_iff.
  - apply negb_false_iff, in_set_true in Hx. exists x. split; [by left|done].
  - destruct (IH Hxs) as (z & Hz & Hz'). exists z. split; [by right|done].
Qed.

Lemma elem_of_categories cart c :
  c ∈ categories cart <-> exists item, item ∈ items cart /\ category item = c.
Proof.
  unfold categories. rewrite elem_of_remove_dups, list_elem_of_fmap. split.
  - intros (i & -> & Hi). by exists i.
  - intros (i & Hi & <-). by exists i.
Qed.

Lemma truthy_true {A} (o : option (list A)) :
  Py.truthy o = true <-> exists l, o = Some l /\ l <> [].
Proof.
  destruct o as [[|x l]|]; simpl; split; try done.
  - intros (l & [= <-] & Hl). done.
  - intros _. by eexists.
  - by intros (l & ? & _).
Qed.

(** A membership rule: passed when the list is absent or empty, or when
    some entry equals the value once both are written in capitals. *)
Lemma membership_rule (o : option (list string)) (x : string) :
  Py.truthy o && negb (Py.in_set (Py.upper x) (map Py.upper (default [] o)))
    = false
  <-> forall l, o = Some l -> l <> [] ->
                exists t, t ∈ l /\ Py.upper t = Py.upper x.
Proof.
  rewrite andb_false_iff, negb_false_iff. split.
  - intros [Hf|Hin] l -> Hl.
    + destruct l; [done|]. simpl in Hf. done.
    + simpl in Hin. by apply in_set_upper in Hin.
  - intros Hrule. destruct (Py.truthy o) eqn:Ht; [|by left]. right.
    apply truthy_true in Ht as (l & -> & Hl). simpl.
    apply in_set_upper. by apply Hrule.
Qed.

(** The two category rules. *)
Lemma applicable_rule (o : option (list string)) cart :
  Py.truthy o
  && Py.isdisjoint (map Py.upper (categories cart)) (map Py.upper (default [] o))
    = false
  <-> forall l, o = Some l -> l <> [] ->
        exists item a, item ∈ items cart /\ a ∈ l
                       /\ Py.upper (category item) = Py.upper a.
Proof.
  rewrite andb_false_iff. split.
  - intros [Hf|Hd] l -> Hl.
    + destruct l; [done|]. simpl in Hf. done.
    + simpl in Hd. apply isdisjoint_false in Hd as (x & Hx & Hx').
      apply list_elem_of_fmap in Hx as (c & -> & Hc).
      apply elem_of_categories in Hc as (item & Hitem & <-).
      apply list_elem_of_fmap in Hx' as (a & Ha & Hal).
      by exists item, a.
  - intros Hrule. destruct (Py.truthy o) eqn:Ht; [|by left]. right.
    apply truthy_true in Ht as (l & -> & Hl). simpl.
    destruct (Hrule l eq_refl Hl) as (item & a & Hitem & Ha & Heq).
    destruct (Py.isdisjoint _ _) eqn:Hd; [|done]. exfalso.
    rewrite isdisjoint_true in Hd.
    apply (Hd (Py.upper (category item))).
    + apply list_elem_of_fmap. exists (category item). split; [done|].
      apply elem_of_categories. by exists item.
    + rewrite Heq. apply list_elem_of_fmap. by exists a.
Qed.

Lemma excluded_rule (o : option (list string)) cart :
  Py.truthy o
  && negb (Py.isdisjoint (map Py.upper (categories cart))
             (map Py.upper (default [] o)))
    = false
  <-> forall l, o = Some l ->
        forall item x, item ∈ items cart -> x ∈ l ->
                       Py.upper (category item) <> Py.upper x.
Proof.
  rewrite andb_false_iff, negb_false_iff. split.
  - intros [Hf|Hd] l ->.
    + destruct l; [by intros item x _ ?%elem_of_nil|]. simpl in Hf. done.
    + simpl in Hd. rewrite isdisjoint_true in Hd.
      intros item x Hitem Hx Heq.
      apply (Hd (Py.upper (category item))).
      * apply list_elem_of_fmap. exists (category item). split; [done|].
        apply elem_of_categories. by exists item.
      * rewrite Heq. apply list_elem_of_fmap. by exists x.
  - intros Hrule. destruct (Py.truthy o) eqn:Ht; [|by left]. right.
    apply truthy_true in Ht as (l & -> & Hl). simpl.
    apply isdisjoint_true. intros x Hx Hx'.
    apply list_elem_of_fmap in Hx as (c & -> & Hc).
    apply elem_of_categories in Hc as (item & Hitem & <-).
    apply list_elem_of_fmap in Hx' as (a & Ha & Hal).
    by apply (Hrule l eq_refl item a).
Qed.

(** [check_eligibility] answers [true] when none of its nine tests fires. *)
Lemma check_eligibility_tests coupon user cart :
  let e := eligibility coupon in
  check_eligibility coupon user cart = true <->
  Py.truthy (allowedUserTiers e)
    && negb (Py.in_set (Py.upper (default ""%string (userTier user)))
               (map Py.upper (default [] (allowedUserTiers e)))) = false
  /\ Py.truthy (allowedCountries e)
     && negb (Py.in_set (Py.upper (default ""%string (country user)))
                (map Py.upper (default [] (allowedCountries e)))) = false
  /\ Py.truthy_bool (firstOrderOnly e) && negb (ordersPlaced user =? 0) = false
  /\ match minOrdersPlaced e with
     | Some m => ordersPlaced user <? m
     | None => false
     end = false
  /\ match minLifetimeSpend e with
     | Some m => Py.flt (lifetimeSpend user) m
     | None => false
     end = false
  /\ match minCartValue e with
     | Some m => Py.flt (total_value cart) m
     | None => false
     end = false
  /\ match minItemsCount e with
     | Some m => total_items_count cart <? m
     | None => false
     end = false
  /\ Py.truthy (applicableCategories e)
     && Py.isdisjoint (map Py.upper (categories cart))
          (map Py.upper (default [] (applicableCategories e))) = false
  /\ Py.truthy (excludedCategories e)
     && negb (Py.isdisjoint (map Py.upper (categories cart))
                (map Py.upper (default [] (excludedCategories e)))) = false.
Proof.
  intros e. unfold check_eligibility. fold e.
  repeat match goal with
  | |- context [if ?b then false else _] =>
      lazymatch b with
      | context [if _ then _ else _] => fail
      | _ => destruct b eqn:?
      end
  end; split; try done; intros; repeat split; try done;
  repeat match goal with H : _ /\ _ |- _ => destruct H end; congruence.
Qed.

(** X15: [check_eligibility] accepts exactly the users and carts that meet
    every rule the coupon sets: tier and country among the allowed ones,
    first order only, the four minimums, a cart category among the
    applicable ones and none among the excluded ones, texts compared
    without regard to case. *)
Theorem check_eligibility_meets_rules coupon user cart :
  check_eligibility coupon user cart = true
  <-> meets_rules (eligibility coupon) user cart.
Proof.
  rewrite check_eligibility_tests. unfold meets_rules.
  rewrite !membership_rule, applicable_rule, excluded_rule.
  set (e := eligibility coupon).
  assert (H3 : Py.truthy_bool (firstOrderOnly e)
               && negb (ordersPlaced user =? 0) = false
               <-> (firstOrderOnly e = Some true -> ordersPlaced user = 0)).
  { destruct (firstOrderOnly e) as [[|]|]; simpl.
    - rewrite negb_false_iff, Z.eqb_eq. split; [done|]. intros H. by apply H.
    - split; [done|done].
    - split; [done|done]. }
  assert (H4 : match minOrdersPlaced e with
               | Some m => ordersPlaced user <? m
               | None => false
               end = false
               <-> (forall m, minOrdersPlaced e = Some m -> m <= ordersPlaced user)).
  { destruct (minOrdersPlaced e) as [m|].
    - rewrite Z.ltb_ge. split; [by intros ? ? [= <-]|]. intros H. by apply H.
    - split; [done|done]. }
  assert (H5 : match minLifetimeSpend e with
               | Some m => Py.flt (lifetimeSpend user) m
               | None => false
               end = false
               <-> (forall m, minLifetimeSpend e = Some m ->
                              (m <= lifetimeSpend user)%Q)).
  { destruct (minLifetimeSpend e) as [m|].
    - rewrite flt_false. split; [by intros ? ? [= <-]|]. intros H. by apply H.
    - split; [done|done]. }
  assert (H6 : match minCartValue e with
               | Some m => Py.flt (total_value cart) m
               | None => false
               end = false
               <-> (forall m, minCartValue e = Some m ->
                              (m <= total_value cart)%Q)).
  { destruct (minCartValue e) as [m|].
    - rewrite flt_false. split; [by intros ? ? [= <-]|]. intros H. by apply H.
    - split; [done|done]. }
  assert (H7 : match minItemsCount e with
               | Some m => total_items_count cart <? m
               | None => false
               end = false
               <-> (forall m, minItemsCount e = Some m ->
                              m <= total_items_count cart)).
  { destruct (minItemsCount e) as [m|].
    - rewrite Z.ltb_ge. split; [by intros ? ? [= <-]|]. intros H. by apply H.
    - split; [done|done]. }
  rewrite H3, H4, H5, H6, H7. reflexivity.
Qed.

(* ================================================================== *)
(** ** Case does not matter *)
(* ================================================================== *)

Lemma upper_ascii_idem c : Py.upper_ascii (Py.upper_ascii c) = Py.upper_ascii c.
Proof. by destruct c as [[] [] [] [] [] [] [] []]. Qed.

Lemma upper_idem s : Py.upper (Py.upper s) = Py.upper s.
Proof.
  induction s as [|c s IH]; simpl; [done|].
  by rewrite upper_ascii_idem, IH.
Qed.

Lemma upper_default_upper (o : option string) :
  Py.upper (default ""%string (Py.upper <$> o))
  = Py.upper (default ""%string o).
Proof. destruct o; simpl; [apply upper_idem|done]. Qed.

Lemma upper_list_upper (o : option (list string)) :
  map Py.upper (default [] (map Py.upper <$> o))
  = map Py.upper (default [] o).
Proof.
  destruct o as [l|]; simpl; [|done].
  induction l as [|x l IH]; simpl; [done|]. by rewrite upper_idem, IH.
Qed.

Lemma truthy_upper (o : option (list string)) :
  Py.truthy (map Py.upper <$> o) = Py.truthy o.
Proof. by destruct o as [[|x l]|]. Qed.

(** Disjointness looks at the members of its first argument only. *)
Lemma isdisjoint_ext xs xs' ys :
  (forall x, x ∈ xs <-> x ∈ xs') ->
  Py.isdisjoint xs ys = Py.isdisjoint xs' ys.
Proof.
  intros Hmem.
  destruct (Py.isdisjoint xs ys) eqn:H1, (Py.isdisjoint xs' ys) eqn:H2;
    try done.
  - apply isdisjoint_false in H2 as (x & Hx & Hy).
    rewrite isdisjoint_true in H1. apply Hmem in Hx. by apply H1 in Hx.
  - apply isdisjoint_false in H1 as (x & Hx & Hy).
    rewrite isdisjoint_true in H2. apply Hmem in Hx. by apply H2 in Hx.
Qed.

Lemma upper_cart_totals cart :
  total_value (upper_cart cart) = total_value cart
  /\ total_items_count (upper_cart cart) = total_items_count cart.
Proof.
  unfold total_value, total_items_count, upper_cart. simpl. split.
  - generalize 0%Q. induction (items cart) as [|i l IH]; simpl; [done|].
    intros q. apply IH.
  - generalize 0. induction (items cart) as [|i l IH]; simpl; [done|].
    intros z. apply IH.
Qed.

Lemma upper_cart_categories cart x :
  x ∈ map Py.upper (categories (upper_cart cart))
  <-> x ∈ map Py.upper (categories cart).
Proof.
  rewrite !list_elem_of_fmap. split.
  - intros (c & -> & (i' & Hi' & <-)%elem_of_categories).
    simpl in Hi'. apply list_elem_of_fmap in Hi' as (i & -> & Hi).
    exists (category i). simpl. rewrite upper_idem. split; [done|].
    apply elem_of_categories. by exists i.
  - intros (c & -> & (i & Hi & <-)%elem_of_categories).
    exists (Py.upper (category i)). rewrite upper_idem. split; [done|].
    apply elem_of_categories. exists (upper_item i). split; [|done].
    simpl. apply list_elem_of_fmap. by exists i.
Qed.

(** X16: the answer of [check_eligibility] does not depend on the case of
    any text: writing the user's tier and country, the categories of the
    cart, or the tiers, countries and categories of the rules in capitals
    changes nothing. *)
Theorem check_eligibility_ignores_case coupon user cart :
  check_eligibility coupon (upper_user user) cart
    = check_eligibility coupon user cart
  /\ check_eligibility coupon user (upper_cart cart)
     = check_eligibility coupon user cart
  /\ check_eligibility
       (with_eligibility coupon (upper_rules (eligibility coupon))) user cart
     = check_eligibility coupon user cart.
Proof.
  split; [|split].
  - unfold check_eligibility, upper_user. simpl.
    by rewrite !upper_default_upper.
  - unfold check_eligibility.
    destruct (upper_cart_totals cart) as [-> ->].
    by rewrite !(isdisjoint_ext _ _ _ (upper_cart_categories cart)).
  - unfold check_eligibility, with_eligibility, upper_rules. simpl.
    by rewrite !truthy_upper, !upper_list_upper.
Qed.

(** X17: a user without a tier, or with an empty one, is never eligible
    for a coupon that restricts tiers to a non-empty list of non-empty
    names. *)
Theorem no_tier_never_in_restricted_tiers coupon user cart tiers :
  allowedUserTiers (eligibility coupon) = Some tiers ->
  tiers <> [] ->
  ""%string ∉ tiers ->
  default ""%string (userTier user) = ""%string ->
  check_eligibility coupon user cart = false.
Proof.
  intros Htiers Hne Hnames Hnone.
  destruct (check_eligibility coupon user cart) eqn:Hc; [|done].
  apply check_eligibility_tests in Hc as (Htier & _).
  rewrite membership_rule in Htier.
  destruct (Htier tiers Htiers Hne) as (t & Ht & Hup).
  rewrite Hnone in Hup. destruct t; [done|]. simpl in Hup. done.
Qed.

Lemma no_tier_never_in_restricted_tiers_witness :
  check_eligibility
    (with_eligibility Demo.coupon_A
       (with_allowedUserTiers Eligibility_default
          (Some ["gold"%string; "silver"%string])))
    Sample.visitor Demo.cart_200 = false.
Proof.
  apply (no_tier_never_in_restricted_tiers _ Sample.visitor Demo.cart_200
           ["gold"%string; "silver"%string]).
  - reflexivity.
  - discriminate.
  - compute_done.
  - reflexivity.
Defined.

(* ================================================================== *)
(** ** What construction accepts *)
(* ================================================================== *)

Lemma constraint_nil ok field : constraint ok field = [] <-> ok = true.
Proof. by destruct ok. Qed.

Lemma constraint_opt_nil {A} (check : A -> bool) o field :
  constraint_opt check o field = [] <-> forall v, o = Some v -> check v = true.
Proof.
  destruct o as [v|]; simpl; [|done].
  rewrite constraint_nil. split; [by intros ? ? [= <-]|]. intros H. by apply H.
Qed.

Lemma finish_Built {A} (a : A) errors : finish a errors = Built a <-> errors = [].
Proof. by destruct errors. Qed.

Lemma Eligibility_errors_nil e :
  Eligibility_errors e = [] <->
  (forall m, minLifetimeSpend e = Some m -> (0 <= m)%Q)
  /\ (forall m, minOrdersPlaced e = Some m -> 0 <= m)
  /\ (forall m, minCartValue e = Some m -> (0 <= m)%Q)
  /\ (forall m, minItemsCount e = Some m -> 0 <= m).
Proof.
  unfold Eligibility_errors. rewrite !app_nil, !constraint_opt_nil.
  setoid_rewrite fle_true. setoid_rewrite Z.leb_le. tauto.
Qed.

Lemma Coupon_errors_nil c :
  Coupon_errors c = [] <->
  (1 <= Py.len (code c) <= 64)%nat
  /\ (0 < discountValue c)%Q
  /\ (forall cap, maxDiscountAmount c = Some cap -> (0 < cap)%Q)
  /\ startDate c < endDate c
  /\ 1 <= usageLimitPerUser c
  /\ Eligibility_errors (eligibility c) = [].
Proof.
  unfold Coupon_errors, validate_date_range.
  rewrite !app_nil, !constraint_nil, constraint_opt_nil.
  rewrite andb_true_iff, !Nat.leb_le, negb_true_iff, Z.leb_gt, Z.leb_le.
  setoid_rewrite flt_true. tauto.
Qed.

(** X18: construction accepts a coupon exactly when its code has 1 to 64
    characters, its discount value is positive, its cap (if any) is
    positive, its end date is after its start date, its usage limit is at
    least 1 and the four minimums of its rules (if set) are not negative;
    it then returns the coupon as given. The length of the code is counted
    in characters, not in bytes. *)
Theorem Coupon_new_accepts c :
  (Coupon_new c = Built c <->
   (1 <= Py.len (code c) <= 64)%nat
   /\ (0 < discountValue c)%Q
   /\ (forall cap, maxDiscountAmount c = Some cap -> (0 < cap)%Q)
   /\ startDate c < endDate c
   /\ 1 <= usageLimitPerUser c
   /\ (forall m, minLifetimeSpend (eligibility c) = Some m -> (0 <= m)%Q)
   /\ (forall m, minOrdersPlaced (eligibility c) = Some m -> 0 <= m)
   /\ (forall m, minCartValue (eligibility c) = Some m -> (0 <= m)%Q)
   /\ (forall m, minItemsCount (eligibility c) = Some m -> 0 <= m))
  /\ (is_rejected (Coupon_new c) = false <-> Coupon_new c = Built c).
Proof.
  split.
  - unfold Coupon_new.
    rewrite finish_Built, Coupon_errors_nil, Eligibility_errors_nil. tauto.
  - unfold Coupon_new, finish. by destruct (Coupon_errors c).
Qed.

Lemma CartItem_errors_nil i :
  CartItem_errors i = [] <-> (0 <= unitPrice i)%Q /\ 1 <= quantity i.
Proof.
  unfold CartItem_errors.
  by rewrite app_nil, !constraint_nil, fle_true, Z.leb_le.
Qed.

Lemma fold_items_count l acc :
  Forall (fun i => CartItem_errors i = []) l ->
  acc + Z.of_nat (length l)
  <= fold_left (fun acc item => acc + quantity item) l acc.
Proof.
  intros Hl. revert acc.
  induction Hl as [|i l Hi _ IH]; intros acc; simpl length; simpl fold_left.
  - lia.
  - apply CartItem_errors_nil in Hi as [_ Hq].
    specialize (IH (acc + quantity i)). lia.
Qed.

(** X19: construction accepts a cart exactly when every line has a unit
    price that is not negative and a quantity of at least 1; an accepted
    cart is worth at least 0 and counts at least as many items as it has
    lines. *)
Theorem Cart_new_accepts cart :
  (Cart_new cart = Built cart <->
   forall item, item ∈ items cart ->
                (0 <= unitPrice item)%Q /\ 1 <= quantity item)
  /\ (Cart_new cart = Built cart ->
      (0 <= total_value cart)%Q
      /\ Z.of_nat (length (items cart)) <= total_items_count cart).
Proof.
  assert (Hiff : Cart_new cart = Built cart <->
                 Forall (fun i => CartItem_errors i = []) (items cart)).
  { split; [apply Cart_new_items|].
    intros Hall. unfold Cart_new. apply finish_Built.
    induction Hall as [|i l Hi _ IH]; simpl; [done|]. by rewrite Hi, IH. }
  split.
  - rewrite Hiff, Forall_forall.
    by setoid_rewrite CartItem_errors_nil.
  - intros Hcart. split; [by apply total_value_nonneg|].
    apply Hiff in Hcart.
    pose proof (fold_items_count _ 0 Hcart) as H.
    unfold total_items_count. lia.
Qed.

Lemma Cart_new_accepts_witness :
  (0 <= total_value Demo.cart_200)%Q
  /\ Z.of_nat (length (items Demo.cart_200)) <= total_items_count Demo.cart_200.
Proof.
  apply (proj2 (Cart_new_accepts Demo.cart_200)). reflexivity.
Defined.

Lemma Coupon_new_accepts_witness :
  (1 <= Py.len (code Demo.coupon_A) <= 64)%nat
  /\ (0 < discountValue Demo.coupon_A)%Q
  /\ (forall cap, maxDiscountAmount Demo.coupon_A = Some cap -> (0 < cap)%Q)
  /\ startDate Demo.coupon_A < endDate Demo.coupon_A
  /\ 1 <= usageLimitPerUser Demo.coupon_A
  /\ (forall m, minLifetimeSpend (eligibility Demo.coupon_A) = Some m -> (0 <= m)%Q)
  /\ (forall m, minOrdersPlaced (eligibility Demo.coupon_A) = Some m -> 0 <= m)
  /\ (forall m, minCartValue (eligibility Demo.coupon_A) = Some m -> (0 <= m)%Q)
  /\ (forall m, minItemsCount (eligibility Demo.coupon_A) = Some m -> 0 <= m).
Proof.
  exact (proj1 (proj1 (Coupon_new_accepts Demo.coupon_A)) eq_refl).
Defined.

Lemma check_eligibility_meets_rules_witness :
  meets_rules (eligibility Demo.coupon_A) Demo.shopper Demo.cart_200.
Proof.
  exact (proj1 (check_eligibility_meets_rules Demo.coupon_A Demo.shopper
                  Demo.cart_200) eq_refl).
Defined.

(* ================================================================== *)
(** ** The discount as a function of the cart total *)
(* ================================================================== *)

(** Case analysis on every minimum and maximum of the goal. *)
Ltac split_minmax :=
  repeat match goal with
  | |- context [Qmax ?a ?b] =>
      let m := fresh "m" in
      let Hm := fresh "Hm" in
      destruct (Q.max_spec a b) as [[? Hm]|[? Hm]];
      set (m := Qmax a b) in *; clearbody m
  | |- context [Qmin ?a ?b] =>
      let m := fresh "m" in
      let Hm := fresh "Hm" in
      destruct (Q.min_spec a b) as [[? Hm]|[? Hm]];
      set (m := Qmin a b) in *; clearbody m
  | H : context [Qmax ?a ?b] |- _ =>
      let m := fresh "m" in
      let Hm := fresh "Hm" in
      destruct (Q.max_spec a b) as [[? Hm]|[? Hm]];
      set (m := Qmax a b) in *; clearbody m
  | H : context [Qmin ?a ?b] |- _ =>
      let m := fresh "m" in
      let Hm := fresh "Hm" in
      destruct (Q.min_spec a b) as [[? Hm]|[? Hm]];
      set (m := Qmin a b) in *; clearbody m
  end.

(** The amount before the final clamp, as a function of the cart total. *)
Lemma calculate_discount_of_total coupon cart :
  calculate_discount coupon cart =
  Qmax 0 (Qmin
            match discountType coupon with
            | FLAT => discountValue coupon
            | PERCENT =>
                match maxDiscountAmount coupon with
                | Some cap =>
                    Qmin (total_value cart * (discountValue coupon / 100)) cap
                | None => (total_value cart * (discountValue coupon / 100))%Q
                end
            end
            (total_value cart)).
Proof.
  unfold calculate_discount. rewrite py_max_Qmax, py_min_Qmin.
  destruct (discountType coupon); [done|].
  destruct (maxDiscountAmount coupon); [|done]. by rewrite py_min_Qmin.
Qed.

Lemma Coupon_new_amounts c :
  Coupon_new c = Built c ->
  (0 < discountValue c)%Q
  /\ forall cap, maxDiscountAmount c = Some cap -> (0 < cap)%Q.
Proof.
  unfold Coupon_new. rewrite finish_Built, Coupon_errors_nil. tauto.
Qed.

(** X21: for a coupon that passed construction, a cart worth more never
    gets a smaller discount. *)
Theorem discount_monotone_in_cart_total coupon cart1 cart2 :
  Coupon_new coupon = Built coupon ->
  (total_value cart1 <= total_value cart2)%Q ->
  (calculate_discount coupon cart1 <= calculate_discount coupon cart2)%Q.
Proof.
  intros [Hv _]%Coupon_new_amounts Hle.
  rewrite !calculate_discount_of_total.
  set (t1 := total_value cart1) in *. set (t2 := total_value cart2) in *.
  set (v := discountValue coupon) in *.
  assert (Hrate : (0 < v / 100)%Q) by (apply Qlt_shift_div_l; lra).
  assert (Hprod : (t1 * (v / 100) <= t2 * (v / 100))%Q)
    by (apply Qmult_le_compat_r; lra).
  set (a1 := (t1 * (v / 100))%Q) in *. set (a2 := (t2 * (v / 100))%Q) in *.
  destruct (discountType coupon).
  - split_minmax; lra.
  - destruct (maxDiscountAmount coupon) as [cap|]; split_minmax; lra.
Qed.

Lemma discount_monotone_in_cart_total_witness :
  (calculate_discount Demo.coupon_A Demo.cart_small
   <= calculate_discount Demo.coupon_A Demo.cart_200)%Q.
Proof.
  apply (discount_monotone_in_cart_total Demo.coupon_A Demo.cart_small
           Demo.cart_200).
  - reflexivity.
  - vm_compute. discriminate.
Defined.

(** X22: for a coupon and a cart that passed construction, a FLAT coupon
    gives the smaller of its value and the cart total, whatever its cap; a
    PERCENT coupon without cap and with a rate of at most 100 gives exactly
    the rate applied to the cart total; a PERCENT coupon with a cap gives
    at most the cap. *)
Theorem calculate_discount_cases coupon cart :
  Coupon_new coupon = Built coupon ->
  Cart_new cart = Built cart ->
  match discountType coupon, maxDiscountAmount coupon with
  | FLAT, _ =>
      (calculate_discount coupon cart
       == Qmin (discountValue coupon) (total_value cart))%Q
  | PERCENT, None =>
      (discountValue coupon <= 100)%Q ->
      (calculate_discount coupon cart
       == total_value cart * (discountValue coupon / 100))%Q
  | PERCENT, Some cap => (calculate_discount coupon cart <= cap)%Q
  end.
Proof.
  intros [Hv Hcap]%Coupon_new_amounts Htotal%total_value_nonneg.
  rewrite calculate_discount_of_total.
  set (total := total_value cart) in *. set (v := discountValue coupon) in *.
  assert (Hrate : (0 < v / 100)%Q) by (apply Qlt_shift_div_l; lra).
  destruct (discountType coupon).
  - destruct (maxDiscountAmount coupon); split_minmax; lra.
  - destruct (maxDiscountAmount coupon) as [cap|].
    + specialize (Hcap cap eq_refl).
      set (amount := (total * (v / 100))%Q) in *. split_minmax; lra.
    + intros Hfull.
      assert (Hle1 : (v / 100 <= 1)%Q) by (apply Qle_shift_div_r; lra).
      assert (Hamount : (total * (v / 100) <= total * 1)%Q).
      { rewrite !(Qmult_comm total). apply Qmult_le_compat_r; lra. }
      assert (Hpos : (0 <= total * (v / 100))%Q)
        by (apply Qmult_le_0_compat; lra).
      set (amount := (total * (v / 100))%Q) in *. split_minmax; lra.
Qed.

Lemma calculate_discount_cases_witness :
  (calculate_discount Demo.coupon_A Demo.cart_200 <= 15)%Q.
Proof.
  exact (calculate_discount_cases Demo.coupon_A Demo.cart_200 eq_refl eq_refl).
Defined.

(* ================================================================== *)
(** ** The cart *)
(* ================================================================== *)

(** X23: [categories] lists every category that occurs on a line of the
    cart, each once, and nothing else. *)
Theorem categories_distinct cart :
  NoDup (categories cart)
  /\ forall c, c ∈ categories cart
               <-> exists item, item ∈ items cart /\ category item = c.
Proof.
  split; [apply NoDup_remove_dups|]. intros c. apply elem_of_categories.
Qed.

Lemma fold_count_acc l acc :
  fold_left (fun acc item => acc + quantity item) l acc
  = acc + fold_left (fun acc item => acc + quantity item) l 0.
Proof.
  revert acc. induction l as [|i l IH]; intros acc; simpl; [lia|].
  rewrite (IH (acc + _)), (IH (0 + _)). lia.
Qed.

(** X24: the item count of a cart is the sum over its parts: putting the
    lines of two carts together adds up their item counts, and the empty
    cart counts no item. *)
Theorem cart_item_counts_add_up lines1 lines2 :
  total_items_count {| items := lines1 ++ lines2 |}
  = total_items_count {| items := lines1 |}
    + total_items_count {| items := lines2 |}
  /\ total_items_count {| items := [] |} = 0.
Proof.
  unfold total_items_count. simpl. split; [|done].
  rewrite fold_left_app. apply fold_count_acc.
Qed.

(* ================================================================== *)
(** ** The response of the best-coupon route *)
(* ================================================================== *)

(** X25: in a reachable world, whenever [get_best_coupon] answers, the
    answer is either the single key [bestCoupon] set to null, or a stored
    coupon and its discount, which is not negative; the two projection keys
    are present exactly when the request set [evaluateUsageImpact] to true,
    and then they hold integers, the projected usage being at least 1 and at
    most the limit. *)
Theorem get_best_coupon_response w payload :
  reachable w ->
  forall response,
    get_best_coupon w payload = response ->
    response = [("bestCoupon"%string, JNull)]
    \/ exists c d,
         (exists k, (k, c) ∈ COUPONS w) /\ (0 <= d)%Q
         /\ match evaluateUsageImpact payload with
            | Some true =>
                exists projected lim,
                  response =
                    [("bestCoupon"%string, JCoupon c);
                     ("computedDiscount"%string, JNumber d);
                     ("projectedUsageForUser"%string, JInt projected);
                     ("usageLimitPerUser"%string, JInt lim)]
                  /\ 1 <= projected <= lim
            | _ =>
                response =
                  [("bestCoupon"%string, JCoupon c);
                   ("computedDiscount"%string, JNumber d)]
            end.
Proof.
  intros Hr response <-. unfold get_best_coupon.
  destruct (best_coupon w _ _ _) as [sel|] eqn:Hsel; [right|by left].
  pose proof (reachable_store w Hr) as (Hkeyed & _ & _).
  apply best_coupon_Some in Hsel
    as (e & He & Hsurv & Hc & Hd & Hp & Hl & _).
  exists (sel_coupon sel), (computedDiscount sel).
  split; [exists e.1; rewrite Hc; by destruct e|].
  destruct e as [k c]. apply survives_true in Hsurv as (_ & Hu & _ & Hpos).
  split; [rewrite Hd; apply round_nonneg; simpl; lra|].
  unfold keyed_by_code in Hkeyed. rewrite Forall_forall in Hkeyed.
  specialize (Hkeyed (k, c) He). simpl in Hkeyed, Hp, Hl.
  pose proof (reachable_usage w k (userId (payload_user payload)) Hr) as Huse.
  destruct (evaluateUsageImpact payload) as [[|]|]; simpl; [|done..].
  simpl in Hp, Hl. rewrite Hp, Hl. simpl.
  eexists _, _. split; [done|].
  rewrite <- Hkeyed.
  destruct (coupons_get (COUPONS w) k); lia.
Qed.

Lemma get_best_coupon_response_witness :
  get_best_coupon Sample.with_AB
    {| payload_user := Demo.shopper; payload_cart := Demo.cart_200;
       evaluateUsageImpact := Some true |}
  = [("bestCoupon"%string, JCoupon Demo.coupon_B);
     ("computedDiscount"%string, JNumber 18.00);
     ("projectedUsageForUser"%string, JInt 1);
     ("usageLimitPerUser"%string, JInt 2)]
  /\ ([("bestCoupon"%string, JCoupon Demo.coupon_B);
       ("computedDiscount"%string, JNumber 18.00);
       ("projectedUsageForUser"%string, JInt 1);
       ("usageLimitPerUser"%string, JInt 2)]
      = [("bestCoupon"%string, JNull)]
      \/ exists c d,
           (exists k, (k, c) ∈ COUPONS Sample.with_AB) /\ (0 <= d)%Q
           /\ exists projected lim,
                [("bestCoupon"%string, JCoupon Demo.coupon_B);
                 ("computedDiscount"%string, JNumber 18.00);
                 ("projectedUsageForUser"%string, JInt 1);
                 ("usageLimitPerUser"%string, JInt 2)]
                = [("bestCoupon"%string, JCoupon c);
                   ("computedDiscount"%string, JNumber d);
                   ("projectedUsageForUser"%string, JInt projected);
                   ("usageLimitPerUser"%string, JInt lim)]
                /\ 1 <= projected <= lim).
Proof.
  assert (H : get_best_coupon Sample.with_AB
                {| payload_user := Demo.shopper; payload_cart := Demo.cart_200;
                   evaluateUsageImpact := Some true |}
              = [("bestCoupon"%string, JCoupon Demo.coupon_B);
                 ("computedDiscount"%string, JNumber 18.00);
                 ("projectedUsageForUser"%string, JInt 1);
                 ("usageLimitPerUser"%string, JInt 2)])
    by (vm_compute; reflexivity).
  split; [exact H|].
  exact (get_best_coupon_response Sample.with_AB
           {| payload_user := Demo.shopper; payload_cart := Demo.cart_200;
              evaluateUsageImpact := Some true |}
           sample_with_AB_reachable _ H).
Defined.
